(** * Lumio chat application: the two Gemini proxy routes

    A shallow embedding of the request-shaping and response-parsing code of
    [src/app/api/gemini/text/route.ts] (the text route) and of the image
    route ([src/unnamed/part_000]), together with the properties that the
    specification states about them.  Both routes work on untyped JSON
    ([any] in the source), so the embedding keeps JavaScript values untyped
    as well and spells out the pieces of the language the routes rely on:
    truthiness, [?.], [||], [===] against a string literal, [for ... of],
    template literals and [Array.prototype.join].  Exceptions that reach the
    [catch] block of a route are kept as such. *)

From Stdlib Require Import ZArith DecimalString.
From stdpp Require Import base option list strings.

Open Scope Z_scope.
Open Scope string_scope.
Open Scope list_scope.

#[local] Set Warnings "-register-all".

(** ** JavaScript values *)

(** A parsed JSON document, plus [undefined].  Numbers are the integers
    (fractions, NaN and the exponent notation of large doubles are left
    out); strings are sequences of one-byte characters.  An object is the
    list of its own properties in insertion order, each key bound once;
    a read takes the first binding. *)
Inductive value : Type :=
| VUndefined
| VNull
| VBool (b : bool)
| VNum (n : Z)
| VStr (s : string)
| VArr (items : list value)
| VObj (props : list (string * value)).

(** What a [throw] carries to the [catch] block.  [TypeError] is the one the
    runtime raises (a property read on [null] or [undefined], a call of
    something that is not a function, a [for ... of] over something that is
    not iterable); [Thrown] is an error raised by the provider client, with
    its [message] property. *)
Inductive exn : Type :=
| TypeError
| Thrown (message : value).

Inductive result (A : Type) : Type :=
| Ok (a : A)
| Throw (e : exn).
Arguments Ok {A} a.
Arguments Throw {A} e.

#[global] Instance result_ret : MRet result := fun _ a => Ok a.
#[global] Instance result_bind : MBind result := fun _ _ f m =>
  match m with
  | Ok a => f a
  | Throw e => Throw e
  end.

(** Monadic map over a list, left to right: the callback of
    [Array.prototype.map] may throw. *)
Fixpoint mapR {A B : Type} (f : A -> result B) (l : list A) : result (list B) :=
  match l with
  | [] => Ok []
  | x :: r => y ← f x; ys ← mapR f r; Ok (y :: ys)
  end.

(** Monadic left fold: the body of a loop may throw. *)
Fixpoint foldR {A S : Type} (f : S -> A -> result S) (l : list A) (s : S) : result S :=
  match l with
  | [] => Ok s
  | x :: r => s' ← f s x; foldR f r s'
  end.

Module JS.

(** ToBoolean. *)
Definition truthy (v : value) : bool :=
  match v with
  | VUndefined | VNull => false
  | VBool b => b
  | VNum n => negb (Z.eqb n 0)
  | VStr s => negb (String.eqb s "")
  | VArr _ | VObj _ => true
  end.

Definition nullish (v : value) : bool :=
  match v with
  | VUndefined | VNull => true
  | _ => false
  end.

(** [typeof v === "string"]. *)
Definition is_string (v : value) : bool :=
  match v with
  | VStr _ => true
  | _ => false
  end.

(** [Array.isArray(v)]. *)
Definition isArray (v : value) : bool :=
  match v with
  | VArr _ => true
  | _ => false
  end.

(** [v === "lit"]. *)
Definition strict_eq_str (v : value) (lit : string) : bool :=
  match v with
  | VStr s => String.eqb s lit
  | _ => false
  end.

(** [a || b]. *)
Definition or (a b : value) : value := if truthy a then a else b.

(** An own property of an object, [undefined] when there is none. *)
Fixpoint own (k : string) (props : list (string * value)) : value :=
  match props with
  | [] => VUndefined
  | (k', v) :: r => if String.eqb k k' then v else own k r
  end.

(** The property read [v.k] on a value that is not [null] or [undefined],
    for the property names the routes use (none of them is an index or a
    name found on a prototype, apart from [length]). *)
Definition member (v : value) (k : string) : value :=
  match v with
  | VObj props => own k props
  | VArr items => if String.eqb k "length" then VNum (Z.of_nat (length items)) else VUndefined
  | VStr s => if String.eqb k "length" then VNum (Z.of_nat (String.length s)) else VUndefined
  | _ => VUndefined
  end.

(** [v.k]: throws on [null] and [undefined]. *)
Definition get (v : value) (k : string) : result value :=
  if nullish v then Throw TypeError else Ok (member v k).

(** [v?.k]. *)
Definition get_opt (v : value) (k : string) : value :=
  if nullish v then VUndefined else member v k.

(** [v?.[0]]. *)
Definition first_opt (v : value) : value :=
  match v with
  | VArr (x :: _) => x
  | VStr (String c _) => VStr (String c EmptyString)
  | VObj props => own "0" props
  | _ => VUndefined
  end.

(** The values a [for ... of] loop visits. *)
Definition iterate (v : value) : result (list value) :=
  match v with
  | VArr items => Ok items
  | VStr s => Ok ((fun c => VStr (String c EmptyString)) <$> String.list_ascii_of_string s)
  | _ => Throw TypeError
  end.

(** [pieces.join(sep)] on strings. *)
Fixpoint join (sep : string) (pieces : list string) : string :=
  match pieces with
  | [] => ""
  | [p] => p
  | p :: r => p +:+ sep +:+ join sep r
  end.

(** ToString, as a template literal and [join] apply it. *)
Fixpoint to_string (v : value) : string :=
  match v with
  | VUndefined => "undefined"
  | VNull => "null"
  | VBool true => "true"
  | VBool false => "false"
  | VNum n => NilZero.string_of_int (Z.to_int n)
  | VStr s => s
  | VArr items =>
      join "," ((fun x => if nullish x then "" else to_string x) <$> items)
  | VObj _ => "[object Object]"
  end.

(** [items.join(sep)] on values: [null] and [undefined] give the empty
    string, everything else its ToString. *)
Definition join_values (sep : string) (items : list value) : string :=
  join sep ((fun x => if nullish x then "" else to_string x) <$> items).

End JS.

(** ** Turn objects in memory *)

(** The turn objects of a request live in memory and arrays hold references
    to them: [[...history]] copies the references, not the turns, and the
    text route then writes through one of them.  [objects] is the memory,
    one cell per turn object (the [parts] array of a turn belongs to its
    cell: in a parsed body nothing else refers to it); [contents] is the
    local array of the routes, a list of addresses.  The array
    [body.history] itself is never written: it stays at the addresses
    [0 .. n-1] of the turns it was parsed with. *)
Record memory : Type := Memory {
  objects : list value;
  contents : list nat
}.

Definition deref (m : memory) (l : nat) : value :=
  default VUndefined (objects m !! l).

(** The conversation as the provider receives it: [contents] with every
    reference followed. *)
Definition snapshot (m : memory) : list value :=
  deref m <$> contents m.

(** [Array.isArray(history) ? [...history] : []]. *)
Definition copy_history (history : value) : memory :=
  match history with
  | VArr turns => Memory turns (seq 0 (length turns))
  | _ => Memory [] []
  end.

(** [contents.push(turn)] for a freshly built [turn]. *)
Definition push_new (turn : value) (m : memory) : memory :=
  Memory (objects m ++ [turn]) (contents m ++ [length (objects m)]).

(** The same own properties with the first binding of [k] set to [v]. *)
Fixpoint set_own (k : string) (v : value) (props : list (string * value))
  : list (string * value) :=
  match props with
  | [] => []
  | (k', v') :: r =>
      if String.eqb k k' then (k', v) :: r else (k', v') :: set_own k v r
  end.

(** The turn object after a write into its [parts] array. *)
Definition with_parts (turn : value) (parts : list value) : value :=
  match turn with
  | VObj props => VObj (set_own "parts" (VArr parts) props)
  | _ => turn
  end.

(** [turn.parts.push(...extra)] on the turn at address [l]: a write into the
    turn's own [parts] array.  It throws unless [parts] is an array. *)
Definition push_parts (l : nat) (extra : list value) (m : memory) : result memory :=
  parts ← JS.get (deref m l) "parts";
  match parts with
  | VArr old =>
      Ok (Memory (<[l := with_parts (deref m l) (old ++ extra)]> (objects m))
                 (contents m))
  | _ => Throw TypeError
  end.

(** The turns of the caller's history, as parsed from the body. *)
Definition history_of (body : value) : list value :=
  match JS.get_opt body "history" with
  | VArr turns => turns
  | _ => []
  end.

(** ** The HTTP surface *)

Inductive model : Type := TEXT_MODEL | IMAGE_MODEL.

(** The argument of [ai.models.generateContent]. *)
Record request : Type := Request {
  req_model : model;
  req_contents : list value;
  req_config : option value
}.

(** What a route answers.  [Respond] is [NextResponse.json(body, {status})];
    [Caught] is the [catch] block, which answers 500 with the message of the
    error it caught. *)
Inductive outcome : Type :=
| Respond (status : Z) (body : value)
| Caught (e : exn).

Definition status_of (o : outcome) : Z :=
  match o with
  | Respond s _ => s
  | Caught _ => 500
  end.

Definition run (r : result outcome) : outcome :=
  match r with
  | Ok o => o
  | Throw e => Caught e
  end.

Definition newline : string := String (Ascii.ascii_of_nat 10) EmptyString.

(** [{ inlineData: { data: a.data, mimeType: a.mimeType || "image/png" } }],
    the callback both routes map over the attachments. *)
Definition inline_of (a : value) : result value :=
  data ← JS.get a "data";
  mimeType ← JS.get a "mimeType";
  Ok (VObj [("inlineData",
             VObj [("data", data);
                   ("mimeType", JS.or mimeType (VStr "image/png"))])]).

Definition user_turn (parts : list value) : value :=
  VObj [("role", VStr "user"); ("parts", VArr parts)].

Definition text_part (prompt : value) : value := VObj [("text", prompt)].

(** ** The text route *)

Module TextRoute.

(** [files.map((f) => ({ inlineData: ... }))]. *)
Definition inlineParts (files : list value) : result (list value) :=
  mapR inline_of files.

(** The state after the first two statements on [contents]: the copied
    history and, for a truthy string [prompt], a new user turn. *)
Definition with_prompt (body : value) : memory :=
  let prompt := JS.get_opt body "prompt" in
  let history := JS.get_opt body "history" in
  let m := copy_history history in
  if JS.truthy prompt && JS.is_string prompt
  then push_new (user_turn [text_part prompt]) m
  else m.

(** "Attach files to the last user message or create a new one". *)
Definition attach (parts : list value) (m : memory) : result memory :=
  match last (contents m) with
  | Some l =>
      if JS.strict_eq_str (JS.get_opt (deref m l) "role") "user"
      then push_parts l parts m
      else Ok (push_new (user_turn parts) m)
  | None => Ok (push_new (user_turn parts) m)
  end.

(** Lines 11 to 29: the construction of [contents]. *)
Definition build (body : value) : result memory :=
  let files := JS.get_opt body "files" in
  let m := with_prompt body in
  match files with
  | VArr (f :: fs) =>
      (* Array.isArray(files) && files.length > 0 *)
      parts ← inlineParts (f :: fs);
      attach parts m
  | _ => Ok m
  end.

(** [response?.candidates?.[0]?.content?.parts || []]. *)
Definition parts_of (response : value) : value :=
  JS.or
    (JS.get_opt
       (JS.get_opt (JS.first_opt (JS.get_opt response "candidates")) "content")
       "parts")
    (VArr []).

(** [parts.filter((p) => p.text)], a step of it. *)
Definition keep_text (kept : list value) (p : value) : result (list value) :=
  t ← JS.get p "text";
  Ok (if JS.truthy t then kept ++ [p] else kept).

(** [parts.filter((p) => p.text).map((p) => p.text).join("\n")]. *)
Definition text_of (response : value) : result string :=
  match parts_of response with
  | VArr ps =>
      kept ← foldR keep_text ps [];
      texts ← mapR (fun p => JS.get p "text") kept;
      Ok (JS.join_values newline texts)
  | _ => Throw TypeError
  end.

Definition POST (generateContent : request -> result value) (body : value)
  : outcome :=
  run (m ← build body;
       if (length (contents m) =? 0)%nat
       then Ok (Respond 400 (VObj [("error", VStr "Provide a prompt or files")]))
       else
         response ← generateContent (Request TEXT_MODEL (snapshot m) None);
         text ← text_of response;
         Ok (Respond 200 (VObj [("text", VStr text)]))).

End TextRoute.

(** ** The image route *)

Module ImageRoute.

(** [images.map((img) => ({ inlineData: ... }))]. *)
Definition imageParts (images : list value) : result (list value) :=
  mapR inline_of images.

(** [userParts]: the prompt, then the mapped images. *)
Definition userParts (body : value) : result (list value) :=
  let prompt := JS.get_opt body "prompt" in
  let images := JS.get_opt body "images" in
  match images with
  | VArr (img :: imgs) =>
      (* Array.isArray(images) && images.length > 0 *)
      parts ← imageParts (img :: imgs);
      Ok ([text_part prompt] ++ parts)
  | _ => Ok [text_part prompt]
  end.

(** Lines 18 to 33: the construction of [contents]. *)
Definition build (body : value) : result memory :=
  let history := JS.get_opt body "history" in
  let m := copy_history history in
  parts ← userParts body;
  Ok (push_new (user_turn parts) m).

(** Lines 36 to 46. *)
Definition config (body : value) : value :=
  let aspectRatio := JS.get_opt body "aspectRatio" in
  let responseType := JS.get_opt body "responseType" in
  let modalities :=
    if JS.truthy responseType then
      if JS.strict_eq_str responseType "IMAGE" then [VStr "IMAGE"]
      else if JS.strict_eq_str responseType "TEXT" then [VStr "TEXT"]
      else [VStr "IMAGE"; VStr "TEXT"]
    else [VStr "IMAGE"] in
  VObj ([("responseModalities", VArr modalities)] ++
        if JS.truthy aspectRatio
        then [("imageConfig", VObj [("aspectRatio", aspectRatio)])]
        else []).

(** "Support both new and old response shapes". *)
Definition parts_of (response : value) : result value :=
  if JS.truthy (JS.get_opt (JS.get_opt response "parts") "length")
  then JS.get response "parts"
  else Ok (JS.or
             (JS.get_opt
                (JS.get_opt (JS.first_opt (JS.get_opt response "candidates")) "content")
                "parts")
             (VArr [])).

(** The two output arrays of the classification loop. *)
Record outputs : Type := Outputs {
  imagesOut : list value;
  textsOut : list value
}.

(** The body of [for (const part of parts)]. *)
Definition classify (out : outputs) (part : value) : result outputs :=
  inlineData ← JS.get part "inlineData";
  if JS.truthy (JS.get_opt inlineData "data") then
    data ← JS.get inlineData "data";
    mimeType ← JS.get inlineData "mimeType";
    Ok (Outputs (imagesOut out ++
                   [VObj [("data", data);
                          ("mimeType", JS.or mimeType (VStr "image/png"))]])
                (textsOut out))
  else
    text ← JS.get part "text";
    if JS.truthy text
    then Ok (Outputs (imagesOut out) (textsOut out ++ [text]))
    else Ok out.

(** Lines 72 to 78: the message of an empty result. *)
Definition msg (response : value) : string :=
  let finishReason :=
    JS.get_opt (JS.first_opt (JS.get_opt response "candidates")) "finishReason" in
  let blockReason :=
    JS.get_opt (JS.get_opt response "promptFeedback") "blockReason" in
  if JS.truthy blockReason
  then "Request blocked: " +:+ JS.to_string blockReason
  else if JS.truthy finishReason
  then "No output returned (finish reason: " +:+ JS.to_string finishReason +:+ ")"
  else "No output returned".

(** Lines 55 to 69: the parts of the response, classified. *)
Definition collect (response : value) : result outputs :=
  parts ← parts_of response;
  items ← JS.iterate parts;
  foldR classify items (Outputs [] []).

(** Lines 55 to 82: what the route makes of the provider's response. *)
Definition normalize (response : value) : result outcome :=
  out ← collect response;
  if (length (imagesOut out) =? 0)%nat && (length (textsOut out) =? 0)%nat
  then Ok (Respond 500 (VObj [("error", VStr (msg response))]))
  else Ok (Respond 200 (VObj [("images", VArr (imagesOut out));
                              ("text", VStr (JS.join_values newline (textsOut out)))])).

Definition POST (generateContent : request -> result value) (body : value)
  : outcome :=
  let prompt := JS.get_opt body "prompt" in
  run (if negb (JS.truthy prompt) || negb (JS.is_string prompt)
       then Ok (Respond 400 (VObj [("error", VStr "Prompt is required")]))
       else
         m ← build body;
         response ← generateContent
                      (Request IMAGE_MODEL (snapshot m) (Some (config body)));
         normalize response).

End ImageRoute.

(** ** The specification's vocabulary *)

Module Spec.

(** ContentPart of the data model, over the untyped payloads. *)
Inductive ContentPart : Type :=
| Text (text : value)
| InlineImage (data mediaType : value).

(** GenerationFailure, the two kinds the normalizer constructs. *)
Inductive GenerationFailure : Type :=
| BlockedByPolicy (reason : value)
| NoOutput (finishReason : option value).

(** How a failure is surfaced: status 500 with the reason or the
    finish-reason diagnostic embedded in the message. *)
Definition surface (f : GenerationFailure) : outcome :=
  Respond 500
    (VObj [("error",
            VStr match f with
                 | BlockedByPolicy reason =>
                     "Request blocked: " +:+ JS.to_string reason
                 | NoOutput (Some finishReason) =>
                     "No output returned (finish reason: "
                       +:+ JS.to_string finishReason +:+ ")"
                 | NoOutput None => "No output returned"
                 end)]).

(** An attachment mapped to an inline image part of a request. *)
Definition inline_image (a : value) : value :=
  VObj [("inlineData",
         VObj [("data", JS.member a "data");
               ("mimeType", JS.or (JS.member a "mimeType") (VStr "image/png"))])].

(** Classification of a response part by the presence of an inline-binary
    field versus a text field; [None] for a part matching neither.  A field
    is present when it is truthy: an empty [data] or an empty [text] does
    not count. *)
Definition classify (part : value) : option ContentPart :=
  let inlineData := JS.member part "inlineData" in
  if JS.truthy (JS.get_opt inlineData "data")
  then Some (InlineImage (JS.get_opt inlineData "data")
                         (JS.or (JS.get_opt inlineData "mimeType") (VStr "image/png")))
  else if JS.truthy (JS.member part "text")
  then Some (Text (JS.member part "text"))
  else None.

(** The images of a response, in the provider's order. *)
Definition images (parts : list value) : list value :=
  omap (fun p => match classify p with
                 | Some (InlineImage data mediaType) =>
                     Some (VObj [("data", data); ("mimeType", mediaType)])
                 | _ => None
                 end) parts.

(** The texts of a response, in encounter order. *)
Definition texts (parts : list value) : list value :=
  omap (fun p => match classify p with
                 | Some (Text t) => Some t
                 | _ => None
                 end) parts.

(** What the text flow reads of a response: the truthy [text] fields. *)
Definition text_fields (parts : list value) : list value :=
  (fun p => JS.member p "text")
    <$> filter (fun p => JS.truthy (JS.member p "text") = true) parts.

(** Pieces concatenated in order with newline separators (the line feed,
    character 10) into a single string. *)
Definition lines (pieces : list string) : string :=
  String.concat (String (Ascii.ascii_of_nat 10) EmptyString) pieces.

End Spec.

(** ** Vocabulary of the statements *)

(** [contents] refers to every object once, in allocation order: the shape
    both routes keep. *)
Definition linked (m : memory) : Prop :=
  contents m = seq 0 (length (objects m)).

Definition blockReason_of (response : value) : value :=
  JS.get_opt (JS.get_opt response "promptFeedback") "blockReason".

Definition finishReason_of (response : value) : value :=
  JS.get_opt (JS.first_opt (JS.get_opt response "candidates")) "finishReason".

(** [candidates[0].content.parts] with every link optional. *)
Definition nested_parts (response : value) : value :=
  JS.get_opt
    (JS.get_opt (JS.first_opt (JS.get_opt response "candidates")) "content")
    "parts".


(** The claim of C2 as it is written: whenever the top-level [parts] field
    is set, those parts are the ones the normalizer uses. *)
Definition top_level_parts_win (response : value) : Prop :=
  forall parts,
    JS.get_opt response "parts" = VArr parts ->
    ImageRoute.parts_of response = Ok (VArr parts).

(** A value that is there: neither [null] nor [undefined].  Reading a
    property of it does not throw. *)
Abbreviation present := (fun v : value => JS.nullish v = false).

(** [Array.isArray(v) && v.length > 0]. *)
Definition non_empty_array (v : value) : bool :=
  match v with
  | VArr (_ :: _) => true
  | _ => false
  end.

(** [prompt && typeof prompt === "string"]. *)
Definition has_prompt (body : value) : bool :=
  JS.truthy (JS.get_opt body "prompt") && JS.is_string (JS.get_opt body "prompt").

(** History plus the optional new prompt turn. *)
Definition so_far (body : value) : list value :=
  history_of body ++
    if has_prompt body then [user_turn [text_part (JS.get_opt body "prompt")]] else [].

(** The claim of C6 as it is written, for one build operation: after the
    build every turn of the input history has the parts it had. *)
Definition history_untouched (build : value -> result memory) (body : value) : Prop :=
  forall m i turn,
    build body = Ok m ->
    history_of body !! i = Some turn ->
    JS.member (deref m i) "parts" = JS.member turn "parts".

Definition rejection : outcome :=
  Respond 400 (VObj [("error", VStr "Provide a prompt or files")]).

(** The claim of C5 as it is written: without a prompt and without files
    the route answers 400, whatever the history. *)
Definition rejects_without_prompt_or_files
  (generateContent : request -> result value) (body : value) : Prop :=
  has_prompt body = false ->
  non_empty_array (JS.get_opt body "files") = false ->
  status_of (TextRoute.POST generateContent body) = 400.

(** ** Sample requests and responses *)

(** The response of the specification's scenario, with a finish reason
    added: blocked for "SAFETY", no output parts. *)
Definition blocked_response : value :=
  VObj [("promptFeedback", VObj [("blockReason", VStr "SAFETY")]);
        ("candidates", VArr [VObj [("finishReason", VStr "STOP")]])].

(** A response with an empty top-level [parts] and a nested text part. *)
Definition empty_top_level : value :=
  VObj [("parts", VArr []);
        ("candidates",
         VArr [VObj [("content",
                      VObj [("parts", VArr [VObj [("text", VStr "hi")]])])]])].

(** Both shapes at once: the top level wins because it is not empty. *)
Definition both_shapes : value :=
  VObj [("parts", VArr [VObj [("text", VStr "top")]]);
        ("candidates",
         VArr [VObj [("content",
                      VObj [("parts", VArr [VObj [("text", VStr "nested")]])])]])].

(** The specification's scenario: one text part "hello" and one inline
    image of media type "image/jpeg". *)
Definition hello_jpeg : value :=
  VObj [("candidates",
         VArr [VObj [("content",
                      VObj [("parts",
                             VArr [VObj [("text", VStr "hello")];
                                   VObj [("inlineData",
                                          VObj [("data", VStr "QUJD");
                                                ("mimeType", VStr "image/jpeg")])]])])]])].

(** Two text parts around an inline image, under [candidates]; a block
    reason, a finish reason and a top-level [parts] of no items besides. *)
Definition hello_world_response : value :=
  VObj [("promptFeedback", VObj [("blockReason", VStr "SAFETY")]);
        ("parts", VArr []);
        ("candidates",
         VArr [VObj [("finishReason", VStr "STOP");
                     ("content",
                      VObj [("parts",
                             VArr [VObj [("text", VStr "hello")];
                                   VObj [("inlineData",
                                          VObj [("data", VStr "QUJD");
                                                ("mimeType", VStr "image/jpeg")])];
                                   VObj [("text", VStr "world")]])])]])].

(** A part carrying both an image and a caption. *)
Definition captioned_image : value :=
  VObj [("inlineData", VObj [("data", VStr "QUJD")]);
        ("text", VStr "a caption")].

Definition two_turn_history : list value :=
  [user_turn [text_part (VStr "a cat")];
   VObj [("role", VStr "model"); ("parts", VArr [text_part (VStr "done")])]].

Definition prompt_only_body : value :=
  VObj [("prompt", VStr "now a dog"); ("history", VArr two_turn_history)].

Definition prompt_and_files_body : value :=
  VObj [("prompt", VStr "what is this?");
        ("files", VArr [VObj [("data", VStr "QUJD"); ("mimeType", VStr "image/jpeg")];
                        VObj [("data", VStr "REVG")]])].

(** A history that ends in a user turn, files, and no prompt. *)
Definition trailing_user_body : value :=
  VObj [("history", VArr [user_turn [text_part (VStr "hi")]]);
        ("files", VArr [VObj [("data", VStr "QUJD")]])].

Definition model_last_body : value :=
  VObj [("history",
         VArr [user_turn [text_part (VStr "hi")];
               VObj [("role", VStr "model"); ("parts", VArr [text_part (VStr "hello")])]]);
        ("files", VArr [VObj [("data", VStr "QUJD")]])].

(** A request with a history and nothing else. *)
Definition history_only_body : value :=
  VObj [("history", VArr [user_turn [text_part (VStr "hello")]])].

(** ** What goes over the wire *)

(** [err?.message] in a [catch] block.  [runtime] is the text the JavaScript
    engine gives to the TypeErrors it raises. *)
Definition message_of (runtime : string) (e : exn) : value :=
  match e with
  | TypeError => VStr runtime
  | Thrown message => message
  end.

(** The body a route answers with; for the [catch] block it is
    [{ error: err?.message || "Unexpected error" }]. *)
Definition http_body (runtime : string) (o : outcome) : value :=
  match o with
  | Respond _ body => body
  | Caught e =>
      VObj [("error", JS.or (message_of runtime e) (VStr "Unexpected error"))]
  end.

(** [JSON.parse(JSON.stringify(v))]: a property whose value is [undefined]
    is left out, an [undefined] array item becomes [null]. *)
Fixpoint wire (v : value) : value :=
  match v with
  | VUndefined => VNull
  | VArr items => VArr (wire <$> items)
  | VObj props =>
      VObj ((fix go (ps : list (string * value)) : list (string * value) :=
               match ps with
               | [] => []
               | (k, x) :: r =>
                   match x with
                   | VUndefined => go r
                   | _ => (k, wire x) :: go r
                   end
               end) props)
  | _ => v
  end.

(** A route behind [fetch]: the request body arrives as it was serialized,
    the answer is the status and the serialized body. *)
Definition serve (runtime : string) (route : value -> outcome)
  : value -> result (Z * value) :=
  fun body => let o := route body in Ok (status_of o, wire (http_body runtime o)).

(** [res.ok]. *)
Definition ok (status : Z) : bool := (200 <=? status)%Z && (status <=? 299)%Z.

(** ** The provider client of [src/lib/gemini.ts] *)

Module Gemini.

(** The handle [new GoogleGenAI({ apiKey })] gives, known by its key. *)
Record client : Type := Client { apiKey : string }.

Definition key_missing : exn :=
  Thrown (VStr "GEMINI_API_KEY is not set in environment").

(** [getAI()], with the module variable [ai] and the environment variable
    passed in and the new [ai] passed out. *)
Definition getAI (GEMINI_API_KEY : option string) (ai : option client)
  : result client * option client :=
  match ai with
  | Some c => (Ok c, ai)
  | None =>
      match GEMINI_API_KEY with
      | Some (String a k) =>
          let c := Client (String a k) in (Ok c, Some c)
      | _ => (Throw key_missing, ai)
      end
  end.

(** A run of calls, each with the environment of its time. *)
Fixpoint calls (keys : list (option string)) (ai : option client)
  : list (result client) * option client :=
  match keys with
  | [] => ([], ai)
  | k :: r =>
      let '(res, ai') := getAI k ai in
      let '(rest, ai'') := calls r ai' in
      (res :: rest, ai'')
  end.

(** [getAI().models.generateContent(request)], for the client library
    [sdk]. *)
Definition generateContent (GEMINI_API_KEY : option string) (ai : option client)
    (sdk : client -> request -> result value) : request -> result value :=
  fun req => c ← fst (getAI GEMINI_API_KEY ai); sdk c req.

End Gemini.

(** ** The image studio of [src/components/image-studio.tsx] *)

Module ImageStudio.

(** WhiteSpace and LineTerminator among the one-byte characters. *)
Definition is_space (c : Ascii.ascii) : bool :=
  let n := Ascii.nat_of_ascii c in
  ((9 <=? n)%nat && (n <=? 13)%nat) || (n =? 32)%nat || (n =? 160)%nat.

Fixpoint trimStart (s : string) : string :=
  match s with
  | EmptyString => EmptyString
  | String c r => if is_space c then trimStart r else s
  end.

Fixpoint trimEnd (s : string) : string :=
  match s with
  | EmptyString => EmptyString
  | String c r =>
      match trimEnd r with
      | EmptyString => if is_space c then EmptyString else String c EmptyString
      | r' => String c r'
      end
  end.

(** [s.trim()]. *)
Definition trim (s : string) : string := trimEnd (trimStart s).

(** [s.split(sep)] for a separator of one character. *)
Fixpoint split (sep : Ascii.ascii) (s : string) : list string :=
  match s with
  | EmptyString => [EmptyString]
  | String c r =>
      if Ascii.eqb c sep then EmptyString :: split sep r
      else match split sep r with
           | h :: t => String c h :: t
           | [] => [String c EmptyString]
           end
  end.

(** The characters [,] and [/]. *)
Definition comma : Ascii.ascii := Ascii.ascii_of_nat 44.

(** [x.split(sep)[1] || otherwise]. *)
Definition second_or (sep : Ascii.ascii) (x otherwise : string) : string :=
  match split sep x !! 1%nat with
  | Some (String c r) => String c r
  | _ => otherwise
  end.

(** The [onload] handler of [toBase64]:
    [result.split(",")[1] || result]. *)
Definition base64_of (result : string) : string :=
  second_or comma result result.

(** A selected file: what [readAsDataURL] gives for it ([None] when the
    read fails) and its [type]. *)
Record file : Type := File {
  read : option string;
  type : string
}.

(** [toBase64(file)]; a failed read rejects with the reader's event, which
    has no [message]. *)
Definition toBase64 (f : file) : result string :=
  match read f with
  | Some result => Ok (base64_of result)
  | None => Throw (Thrown VUndefined)
  end.

(** The component's state. *)
Record state : Type := State {
  prompt : string;
  files : list file;
  imagesOut : list value;
  textOut : value;
  loading : bool;
  aspectRatio : string
}.

(** [s || otherwise] on strings. *)
Definition or_else (s otherwise : string) : string :=
  match s with
  | EmptyString => otherwise
  | _ => s
  end.

(** [{ data: await toBase64(f), mimeType: f.type || "image/png" }]. *)
Definition encode (f : file) : result value :=
  data ← toBase64 f;
  Ok (VObj [("data", VStr data); ("mimeType", VStr (or_else (type f) "image/png"))]).

(** The object [send] serializes:
    [{ prompt, images, aspectRatio: aspectRatio || undefined,
       responseType: "IMAGE" }]. *)
Definition payload (st : state) (images : value) : value :=
  VObj [("prompt", VStr (prompt st));
        ("images", images);
        ("aspectRatio",
         match aspectRatio st with
         | EmptyString => VUndefined
         | a => VStr a
         end);
        ("responseType", VStr "IMAGE")].

(** The [try] block of [send] up to the check of [res.ok]: the parsed
    answer, or what is thrown to the [catch]. *)
Definition exchange (fetch : value -> result (Z * value)) (useEdit : bool)
    (st : state) : result value :=
  images ← (if useEdit
            then encoded ← mapR encode (files st); Ok (VArr encoded)
            else Ok VUndefined);
  res ← fetch (wire (payload st images));
  if ok (fst res)
  then Ok (snd res)
  else Throw (Thrown (VStr (JS.to_string
                              (JS.or (JS.get_opt (snd res) "error")
                                     (VStr "Request failed"))))).

(** [send(useEdit)].  The state it returns is the one after the [finally];
    the updater of [setImagesOut] runs outside the [try], so what it throws
    is not caught.  The logging that follows a success changes nothing here
    and its failures are caught on the spot. *)
Definition send (runtime : string) (fetch : value -> result (Z * value))
    (useEdit : bool) (st : state) : result state :=
  match trim (prompt st) with
  | EmptyString => Ok st
  | _ =>
      match exchange fetch useEdit st with
      | Ok json =>
          fresh ← JS.iterate (JS.or (JS.get_opt json "images") (VArr []));
          Ok (State (prompt st) (files st) (imagesOut st ++ fresh)
                    (JS.or (JS.get_opt json "text") (VStr ""))
                    false (aspectRatio st))
      | Throw e =>
          Ok (State (prompt st) (files st) (imagesOut st)
                    (JS.or (message_of runtime e) (VStr "Unexpected error"))
                    false (aspectRatio st))
      end
  end.



End ImageStudio.

(** A studio with a prompt and one selected file. *)
Definition sample_studio : ImageStudio.state :=
  ImageStudio.State "a red fox"
    [ImageStudio.File (Some "data:image/jpeg;base64,QUJD") "image/jpeg"]
    [VObj [("data", VStr "T0xE"); ("mimeType", VStr "image/png")]]
    (VStr "") false "16:9".

(** A provider response with one inline image. *)
Definition one_image_response : value :=
  VObj [("candidates",
         VArr [VObj [("content",
                      VObj [("parts",
                             VArr [VObj [("inlineData",
                                          VObj [("data", VStr "TkVX")])]])])]])].

(** ** Vocabulary of the further properties *)

(** An image as the image route reports it: a [data] and a [mimeType],
    both truthy. *)
Definition reported_image (i : value) : Prop :=
  exists data mimeType,
    i = VObj [("data", data); ("mimeType", mimeType)]
    /\ JS.truthy data = true
    /\ JS.truthy mimeType = true.

(** What the classification loop keeps true of its two arrays. *)
Definition outputs_sound (out : ImageRoute.outputs) : Prop :=
  Forall reported_image (ImageRoute.imagesOut out)
  /\ Forall (fun t => JS.truthy t = true) (ImageRoute.textsOut out).

(** The character [c] does not occur in [s]. *)
Fixpoint lacks (c : Ascii.ascii) (s : string) : bool :=
  match s with
  | EmptyString => true
  | String c' r => negb (Ascii.eqb c' c) && lacks c r
  end.

(** An image as the studio encodes it: two strings, the media type not
    empty. *)
Definition studio_image (e : value) : Prop :=
  exists data mimeType,
    e = VObj [("data", VStr data); ("mimeType", VStr mimeType)]
    /\ mimeType <> "".

(** The images a [send] of the studio encodes: those of the selected files
    when editing, none when generating. *)
Definition studio_images (useEdit : bool) (st : ImageStudio.state)
  : result (list value) :=
  if useEdit then mapR ImageStudio.encode (ImageStudio.files st) else Ok [].

(** The object the studio serializes for these images. *)
Definition studio_body (useEdit : bool) (st : ImageStudio.state)
    (encoded : list value) : value :=
  wire (ImageStudio.payload st (if useEdit then VArr encoded else VUndefined)).

(** The call of the provider that answers a [send] of the studio. *)
Definition studio_request (st : ImageStudio.state) (encoded : list value) : request :=
  Request IMAGE_MODEL
    [user_turn (text_part (VStr (ImageStudio.prompt st))
                  :: ((fun e => VObj [("inlineData", e)]) <$> encoded))]
    (Some (VObj ([("responseModalities", VArr [VStr "IMAGE"])] ++
                 match ImageStudio.aspectRatio st with
                 | EmptyString => []
                 | a => [("imageConfig", VObj [("aspectRatio", VStr a)])]
                 end))).

(** The studio after a [send] that was answered: what the gallery gained
    and the text shown. *)
Definition studio_after (st : ImageStudio.state) (fresh : list value) (text : value)
  : ImageStudio.state :=
  ImageStudio.State (ImageStudio.prompt st) (ImageStudio.files st)
    (ImageStudio.imagesOut st ++ fresh) text false (ImageStudio.aspectRatio st).

(** * Properties *)

(** ** The result monad and the JavaScript fragment *)

Lemma bind_Ok {A B : Type} (a : A) (f : A -> result B) : (Ok a ≫= f) = f a.
Proof. reflexivity. Qed.

Lemma bind_Throw {A B : Type} (e : exn) (f : A -> result B) :
  (Throw e ≫= f) = Throw e.
Proof. reflexivity. Qed.

Example truthy_empty_string : JS.truthy (VStr "") = false.
Proof. reflexivity. Qed.

Example to_string_nested :
  JS.to_string (VArr [VNum 1; VNull; VArr [VStr "a"; VNum (-2)]]) = "1,,a,-2".
Proof. reflexivity. Qed.

Section js_facts.

Lemma get_not_nullish (v : value) (k : string) :
  JS.nullish v = false -> JS.get v k = Ok (JS.member v k).
Proof. unfold JS.get. by intros ->. Qed.

Lemma get_opt_not_nullish (v : value) (k : string) :
  JS.nullish v = false -> JS.get_opt v k = JS.member v k.
Proof. unfold JS.get_opt. by intros ->. Qed.

Lemma get_opt_member (v : value) (k : string) :
  JS.get_opt v k = JS.member v k.
Proof. by destruct v. Qed.

Lemma truthy_not_nullish (v : value) :
  JS.truthy v = true -> JS.nullish v = false.
Proof. by destruct v. Qed.

Lemma strict_eq_str_spec (v : value) (lit : string) :
  JS.strict_eq_str v lit = true <-> v = VStr lit.
Proof.
  destruct v; simpl; try (split; [discriminate | discriminate]).
  rewrite String.eqb_eq. split; [by intros -> | by intros [= ->]].
Qed.

(** Only an object has an array under a name other than an index. *)
Lemma member_array_object (v : value) (k : string) (items : list value) :
  JS.member v k = VArr items -> exists props, v = VObj props.
Proof.
  destruct v; simpl; try discriminate; try (case String.eqb; discriminate).
  eauto.
Qed.

Lemma member_nullish (v : value) (k : string) :
  JS.nullish v = true -> JS.member v k = VUndefined.
Proof. by destruct v. Qed.

Lemma own_set_own_eq (k : string) (v old : value) (props : list (string * value)) :
  JS.own k props = old -> old <> VUndefined -> JS.own k (set_own k v props) = v.
Proof.
  induction props as [|[k' v'] r IH]; simpl; [congruence|].
  destruct (String.eqb k k') eqn:E; simpl; rewrite E; [done | exact IH].
Qed.

Lemma own_set_own_ne (k k0 : string) (v : value) (props : list (string * value)) :
  k0 <> k -> JS.own k0 (set_own k v props) = JS.own k0 props.
Proof.
  intros Hne. induction props as [|[k' v'] r IH]; simpl; [done|].
  destruct (String.eqb k k') eqn:E; simpl.
  - apply String.eqb_eq in E as <-.
    by destruct (String.eqb k0 k) eqn:E0; [apply String.eqb_eq in E0|].
  - by rewrite IH.
Qed.

End js_facts.

(** Step through the property reads that cannot throw. *)
Ltac reads :=
  repeat (rewrite get_not_nullish by done; rewrite bind_Ok; cbn beta).

(** A write into [parts] sets [parts] and nothing else. *)
Lemma with_parts_parts (turn : value) (old parts : list value) :
  JS.member turn "parts" = VArr old ->
  JS.member (with_parts turn parts) "parts" = VArr parts.
Proof.
  intros H. destruct (member_array_object _ _ _ H) as [props ->]. simpl in *.
  by apply own_set_own_eq with (old := VArr old).
Qed.

Lemma with_parts_other (turn : value) (parts : list value) (k : string) :
  k <> "parts" ->
  JS.member (with_parts turn parts) k = JS.member turn k.
Proof.
  intros Hk. destruct turn; try done. simpl. by apply own_set_own_ne.
Qed.

Section memory_facts.

Lemma follow_all (objs : list value) :
  (fun l => default VUndefined (objs !! l)) <$> seq 0 (length objs) = objs.
Proof.
  apply list_eq. intros i. rewrite list_lookup_fmap.
  destruct (decide (i < length objs)%nat) as [Hlt|Hge].
  - rewrite lookup_seq_lt by done. simpl.
    destruct (lookup_lt_is_Some_2 objs i Hlt) as [x Hx]. by rewrite Hx.
  - rewrite lookup_seq_ge by lia. simpl.
    symmetry. apply lookup_ge_None_2. lia.
Qed.

Lemma snapshot_linked (m : memory) : linked m -> snapshot m = objects m.
Proof. unfold linked, snapshot, deref. intros ->. apply follow_all. Qed.

Lemma linked_copy_history (history : value) : linked (copy_history history).
Proof. by destruct history. Qed.

Lemma linked_push_new (turn : value) (m : memory) :
  linked m -> linked (push_new turn m).
Proof.
  unfold linked, push_new. simpl. intros ->.
  rewrite length_app. simpl. by rewrite seq_app.
Qed.

Lemma linked_push_parts (l : nat) (extra : list value) (m m' : memory) :
  linked m -> push_parts l extra m = Ok m' -> linked m'.
Proof.
  unfold linked, push_parts. intros Hm.
  destruct (JS.get (deref m l) "parts") as [parts|]; simpl; [|done].
  destruct parts; try done. intros [= <-]. simpl.
  by rewrite length_insert.
Qed.

Lemma objects_copy_history (body : value) :
  objects (copy_history (JS.get_opt body "history")) = history_of body.
Proof. unfold history_of. by destruct (JS.get_opt body "history"). Qed.

Lemma last_linked (m : memory) :
  linked m ->
  last (contents m) = match objects m with
                      | [] => None
                      | _ => Some (pred (length (objects m)))
                      end.
Proof.
  unfold linked. intros ->.
  destruct (objects m) as [|x r] using rev_ind; [done|].
  rewrite length_app, seq_app. simpl. rewrite last_snoc.
  replace (length r + 1)%nat with (S (length r)) by lia.
  by destruct r.
Qed.

End memory_facts.

(** ** Facts about the loops *)

Section loop_facts.

Lemma inline_of_ok (a : value) :
  JS.nullish a = false -> inline_of a = Ok (Spec.inline_image a).
Proof.
  intros H. unfold inline_of. rewrite !get_not_nullish by done. done.
Qed.

Lemma mapR_inline_of (l : list value) :
  Forall (fun a => JS.nullish a = false) l ->
  mapR inline_of l = Ok (Spec.inline_image <$> l).
Proof.
  induction 1 as [|a r Ha _ IH]; [done|].
  simpl. rewrite inline_of_ok by done. simpl. by rewrite IH.
Qed.

Lemma foldR_app {A S : Type} (f : S -> A -> result S) (l1 l2 : list A) (s : S) :
  foldR f (l1 ++ l2) s = s' ← foldR f l1 s; foldR f l2 s'.
Proof.
  revert s. induction l1 as [|x r IH]; intros s; [done|].
  simpl. destruct (f s x); simpl; [apply IH | done].
Qed.

End loop_facts.

(** ** The classification loop of the image route *)

Section classification.

(** One pass of the loop body does what the classification of the part
    says: push an image, push a text, or leave both arrays alone. *)
Lemma classify_step (out : ImageRoute.outputs) (part : value) :
  JS.nullish part = false ->
  ImageRoute.classify out part =
    Ok match Spec.classify part with
       | Some (Spec.InlineImage data mediaType) =>
           ImageRoute.Outputs
             (ImageRoute.imagesOut out ++
                [VObj [("data", data); ("mimeType", mediaType)]])
             (ImageRoute.textsOut out)
       | Some (Spec.Text t) =>
           ImageRoute.Outputs (ImageRoute.imagesOut out)
                              (ImageRoute.textsOut out ++ [t])
       | None => out
       end.
Proof.
  intros Hp. unfold ImageRoute.classify, Spec.classify.
  reads. rewrite !get_opt_member.
  destruct (JS.truthy (JS.member (JS.member part "inlineData") "data")) eqn:Hd.
  - assert (JS.nullish (JS.member part "inlineData") = false) as Hi.
    { destruct (JS.member part "inlineData"); done. }
    unfold JS.get. by rewrite Hi.
  - reads. by destruct (JS.truthy (JS.member part "text")).
Qed.






Lemma length_zero {A : Type} (l : list A) :
  (length l =? 0)%nat = true <-> l = [].
Proof. destruct l; simpl; split; done. Qed.

End classification.

(** ** The response normalizer of the image route *)

Section normalizer.

Lemma normalize_empty (response : value) :
  ImageRoute.collect response = Ok (ImageRoute.Outputs [] []) ->
  ImageRoute.normalize response =
    Ok (Respond 500 (VObj [("error", VStr (ImageRoute.msg response))])).
Proof. unfold ImageRoute.normalize. by intros ->. Qed.

(** A response without output parts classifies to two empty arrays. *)
Lemma collect_no_parts (response : value) :
  ImageRoute.parts_of response = Ok (VArr []) ->
  ImageRoute.collect response = Ok (ImageRoute.Outputs [] []).
Proof. unfold ImageRoute.collect. by intros ->. Qed.

(** No parts, no block reason, finish reason "MAX_TOKENS". *)
Example max_tokens_answer :
  ImageRoute.normalize
    (VObj [("candidates", VArr [VObj [("finishReason", VStr "MAX_TOKENS")]])]) =
    Ok (Spec.surface (Spec.NoOutput (Some (VStr "MAX_TOKENS")))).
Proof. reflexivity. Qed.

Lemma blocked_is_not_no_output (reason : value) (finishReason : option value) :
  Spec.surface (Spec.BlockedByPolicy reason)
    <> Spec.surface (Spec.NoOutput finishReason).
Proof. destruct finishReason; simpl; intros [=]. Qed.

(** C1. When the classified images and texts of a response are both empty,
    the normalizer reports BlockedByPolicy with the block reason whenever
    one is there, whatever the finish reason; NoOutput with the finish
    reason only when there is no block reason; and the generic NoOutput
    only when there is neither.  With the block reason "SAFETY" the result
    is BlockedByPolicy("SAFETY") and no NoOutput at all. *)
Theorem C1_block_reason_first (response : value) :
  ImageRoute.collect response = Ok (ImageRoute.Outputs [] []) ->
  (JS.truthy (blockReason_of response) = true ->
   ImageRoute.normalize response =
     Ok (Spec.surface (Spec.BlockedByPolicy (blockReason_of response))))
  /\ (JS.truthy (blockReason_of response) = false ->
      JS.truthy (finishReason_of response) = true ->
      ImageRoute.normalize response =
        Ok (Spec.surface (Spec.NoOutput (Some (finishReason_of response)))))
  /\ (JS.truthy (blockReason_of response) = false ->
      JS.truthy (finishReason_of response) = false ->
      ImageRoute.normalize response = Ok (Spec.surface (Spec.NoOutput None)))
  /\ (blockReason_of response = VStr "SAFETY" ->
      ImageRoute.normalize response =
        Ok (Spec.surface (Spec.BlockedByPolicy (VStr "SAFETY")))
      /\ forall finishReason,
          ImageRoute.normalize response
            <> Ok (Spec.surface (Spec.NoOutput finishReason))).
Proof.
  intros Hempty. rewrite (normalize_empty _ Hempty).
  unfold ImageRoute.msg, Spec.surface.
  fold (blockReason_of response) (finishReason_of response).
  split; [|split; [|split; [|intros Hb; split]]].
  - by intros ->.
  - by intros -> ->.
  - by intros -> ->.
  - by rewrite Hb.
  - intros finishReason. rewrite Hb. simpl.
    destruct finishReason; intros [=].
Qed.

Lemma C1_block_reason_first_witness :
  ImageRoute.collect blocked_response = Ok (ImageRoute.Outputs [] [])
  /\ ImageRoute.normalize blocked_response =
       Ok (Respond 500 (VObj [("error", VStr "Request blocked: SAFETY")])).
Proof.
  split; [reflexivity|].
  exact (proj1 (proj2 (proj2 (proj2
           (C1_block_reason_first blocked_response eq_refl))) eq_refl)).
Defined.

Lemma C2_counterexample : ~ top_level_parts_win empty_top_level.
Proof. intros H. by specialize (H [] eq_refl). Qed.

(** The nested parts are what the route goes on to answer with. *)
Example empty_top_level_answer :
  ImageRoute.normalize empty_top_level =
    Ok (Respond 200 (VObj [("images", VArr []); ("text", VStr "hi")])).
Proof. reflexivity. Qed.

(** C2, amended. A non-empty top-level [parts] array is used as it is,
    whatever [candidates] holds; with the top-level field absent or empty
    the normalizer takes [candidates[0].content.parts]; a field absent at
    either level gives the empty sequence; and the selection never
    throws. *)
Theorem C2_parts_selection (response : value) :
  (forall p ps,
      JS.get_opt response "parts" = VArr (p :: ps) ->
      ImageRoute.parts_of response = Ok (VArr (p :: ps)))
  /\ (JS.get_opt response "parts" = VArr []
      \/ JS.nullish (JS.get_opt response "parts") = true ->
      ImageRoute.parts_of response = Ok (JS.or (nested_parts response) (VArr [])))
  /\ (JS.nullish (JS.get_opt response "parts") = true ->
      JS.nullish (nested_parts response) = true ->
      ImageRoute.parts_of response = Ok (VArr []))
  /\ (exists parts, ImageRoute.parts_of response = Ok parts).
Proof.
  unfold ImageRoute.parts_of. fold (nested_parts response).
  split; [|split; [|split]].
  - intros p ps Hp. rewrite Hp. simpl.
    rewrite get_not_nullish.
    + by rewrite <- get_opt_member, Hp.
    + destruct response; done.
  - intros [-> | Hn]; [done|].
    by destruct (JS.get_opt response "parts").
  - intros Hn Hnn. destruct (JS.get_opt response "parts"); try done;
      by destruct (nested_parts response).
  - destruct (JS.truthy _) eqn:Ht; [|eauto].
    unfold JS.get. destruct (JS.nullish response) eqn:Hr; [|eauto].
    by destruct response.
Qed.

Lemma C2_parts_selection_witness :
  ImageRoute.parts_of both_shapes = Ok (VArr [VObj [("text", VStr "top")]])
  /\ ImageRoute.parts_of empty_top_level = Ok (VArr [VObj [("text", VStr "hi")]])
  /\ ImageRoute.parts_of (VObj []) = Ok (VArr []).
Proof.
  split; [|split].
  - exact (proj1 (C2_parts_selection both_shapes) _ _ eq_refl).
  - exact (proj1 (proj2 (C2_parts_selection empty_top_level)) (or_introl eq_refl)).
  - exact (proj1 (proj2 (proj2 (C2_parts_selection (VObj [])))) eq_refl eq_refl).
Defined.

End normalizer.

Section normalizer_outputs.


Lemma join_values_truthy (sep : string) (l : list value) :
  Forall (fun t => JS.truthy t = true) l ->
  JS.join_values sep l = JS.join sep (JS.to_string <$> l).
Proof.
  intros H. unfold JS.join_values. f_equal.
  apply Forall_fmap_ext. eapply Forall_impl; [exact H|].
  intros t Ht. cbn beta. by rewrite (truthy_not_nullish _ Ht).
Qed.



Lemma join_concat (sep : string) (l : list string) :
  JS.join sep l = String.concat sep l.
Proof.
  induction l as [|p r IH]; [done|]. destruct r as [|q r]; [done|].
  change (p +:+ sep +:+ JS.join sep (q :: r) =
          p +:+ sep +:+ String.concat sep (q :: r)).
  by rewrite IH.
Qed.

Lemma join_lines (l : list string) : JS.join newline l = Spec.lines l.
Proof. apply join_concat. Qed.

Lemma to_string_strings (strings : list string) :
  JS.to_string <$> (VStr <$> strings) = strings.
Proof.
  induction strings as [|x r IH]; [done|].
  cbn [fmap list_fmap]. cbn [fmap] in IH. by rewrite IH.
Qed.




(** The specification's scenario: one text part "hello" and one inline
    image of media type "image/jpeg". *)
Example hello_jpeg_answer :
  ImageRoute.normalize hello_jpeg =
    Ok (Respond 200
          (VObj [("images",
                  VArr [VObj [("data", VStr "QUJD"); ("mimeType", VStr "image/jpeg")]]);
                 ("text", VStr "hello")])).
Proof. reflexivity. Qed.

(** The scenario for any payload and either order of the two parts. *)
Lemma hello_jpeg_any_data (data : string) (text_first : bool) :
  data <> "" ->
  let text := VObj [("text", VStr "hello")] in
  let image := VObj [("inlineData",
                      VObj [("data", VStr data); ("mimeType", VStr "image/jpeg")])] in
  ImageRoute.normalize
    (VObj [("parts", VArr (if text_first then [text; image] else [image; text]))]) =
    Ok (Respond 200
          (VObj [("images",
                  VArr [VObj [("data", VStr data); ("mimeType", VStr "image/jpeg")]]);
                 ("text", VStr "hello")])).
Proof.
  intros Hd. destruct data as [|c data]; [done|]. by destruct text_first.
Qed.

(** An inline image without a media type is reported as "image/png". *)
Lemma media_type_default (part inlineData data : value) :
  JS.member part "inlineData" = inlineData ->
  JS.member inlineData "data" = data ->
  JS.truthy data = true ->
  JS.member inlineData "mimeType" = VUndefined ->
  Spec.classify part = Some (Spec.InlineImage data (VStr "image/png")).
Proof.
  intros <- <- Hd Hm. unfold Spec.classify.
  by rewrite !get_opt_member, Hd, Hm.
Qed.



Example captioned_image_answer :
  ImageRoute.normalize (VObj [("parts", VArr [captioned_image])]) =
    Ok (Respond 200
          (VObj [("images",
                  VArr [VObj [("data", VStr "QUJD"); ("mimeType", VStr "image/png")]]);
                 ("text", VStr "")])).
Proof. reflexivity. Qed.

End normalizer_outputs.

(** ** The construction of [contents] *)

Section builders.

Lemma with_prompt_linked (body : value) : linked (TextRoute.with_prompt body).
Proof.
  unfold TextRoute.with_prompt.
  destruct (_ && _); [apply linked_push_new|]; apply linked_copy_history.
Qed.

Lemma with_prompt_objects (body : value) :
  objects (TextRoute.with_prompt body) =
    history_of body ++
      if JS.truthy (JS.get_opt body "prompt") && JS.is_string (JS.get_opt body "prompt")
      then [user_turn [text_part (JS.get_opt body "prompt")]]
      else [].
Proof.
  unfold TextRoute.with_prompt.
  destruct (_ && _); simpl; rewrite objects_copy_history; [done|].
  by rewrite app_nil_r.
Qed.

Lemma last_contents_snoc (m : memory) (before : list value) (lastT : value) :
  linked m -> objects m = before ++ [lastT] ->
  last (contents m) = Some (length before)
  /\ deref m (length before) = lastT.
Proof.
  intros Hm Ho. rewrite (last_linked _ Hm). unfold deref. rewrite Ho.
  rewrite length_app. simpl. split.
  - destruct before; simpl; f_equal; lia.
  - by rewrite list_lookup_middle.
Qed.

Lemma attach_empty (parts : list value) (m : memory) :
  linked m -> objects m = [] ->
  TextRoute.attach parts m = Ok (push_new (user_turn parts) m).
Proof.
  intros Hm Ho. unfold TextRoute.attach.
  by rewrite (last_linked _ Hm), Ho.
Qed.

Lemma attach_not_user (parts before : list value) (lastT : value) (m : memory) :
  linked m -> objects m = before ++ [lastT] ->
  JS.get_opt lastT "role" <> VStr "user" ->
  TextRoute.attach parts m = Ok (push_new (user_turn parts) m).
Proof.
  intros Hm Ho Hrole. unfold TextRoute.attach.
  destruct (last_contents_snoc _ _ _ Hm Ho) as [-> ->].
  destruct (JS.strict_eq_str _ "user") eqn:E; [|done].
  by apply strict_eq_str_spec in E.
Qed.

Lemma attach_user (parts before old : list value) (lastT : value) (m : memory) :
  linked m -> objects m = before ++ [lastT] ->
  JS.get_opt lastT "role" = VStr "user" ->
  JS.member lastT "parts" = VArr old ->
  TextRoute.attach parts m =
    Ok (Memory (before ++ [with_parts lastT (old ++ parts)]) (contents m)).
Proof.
  intros Hm Ho Hrole Hparts. unfold TextRoute.attach.
  destruct (last_contents_snoc _ _ _ Hm Ho) as [-> Hd].
  rewrite Hd, Hrole. simpl.
  unfold push_parts. rewrite Hd.
  rewrite get_not_nullish, bind_Ok by by destruct lastT.
  rewrite Hparts, Ho. do 2 f_equal.
  replace (length before) with (length before + 0)%nat by lia.
  by rewrite insert_app_r.
Qed.

(** A trailing user turn whose [parts] is not an array: the write throws
    and the route answers 500. *)
Lemma attach_user_throws (parts before : list value) (lastT : value) (m : memory) :
  linked m -> objects m = before ++ [lastT] ->
  JS.get_opt lastT "role" = VStr "user" ->
  JS.isArray (JS.member lastT "parts") = false ->
  TextRoute.attach parts m = Throw TypeError.
Proof.
  intros Hm Ho Hrole Hparts. unfold TextRoute.attach.
  destruct (last_contents_snoc _ _ _ Hm Ho) as [-> Hd].
  rewrite Hd, Hrole. simpl.
  unfold push_parts. rewrite Hd.
  rewrite get_not_nullish, bind_Ok by by destruct lastT.
  by destruct (JS.member lastT "parts").
Qed.

Lemma attach_linked (parts : list value) (m m' : memory) :
  linked m -> TextRoute.attach parts m = Ok m' -> linked m'.
Proof.
  intros Hm. unfold TextRoute.attach.
  destruct (last (contents m)) as [l|].
  - destruct (JS.strict_eq_str _ _).
    + by apply linked_push_parts.
    + intros [= <-]. by apply linked_push_new.
  - intros [= <-]. by apply linked_push_new.
Qed.

Lemma text_build_linked (body : value) (m : memory) :
  TextRoute.build body = Ok m -> linked m.
Proof.
  unfold TextRoute.build.
  pose proof (with_prompt_linked body) as Hl.
  destruct (JS.get_opt body "files") as [| | | | |[|f fs]|];
    try (intros [= <-]; exact Hl).
  destruct (TextRoute.inlineParts (f :: fs)) as [parts|]; [|done].
  rewrite bind_Ok. by apply attach_linked.
Qed.

Lemma image_build_ok (body : value) (parts : list value) :
  ImageRoute.userParts body = Ok parts ->
  let m := push_new (user_turn parts) (copy_history (JS.get_opt body "history")) in
  ImageRoute.build body = Ok m
  /\ objects m = history_of body ++ [user_turn parts]
  /\ snapshot m = history_of body ++ [user_turn parts].
Proof.
  intros Hp m. unfold ImageRoute.build. rewrite Hp, bind_Ok.
  assert (objects m = history_of body ++ [user_turn parts]) as Ho.
  { subst m. simpl. by rewrite objects_copy_history. }
  split; [done|]. split; [done|].
  rewrite snapshot_linked; [done|].
  apply linked_push_new, linked_copy_history.
Qed.

End builders.

(** ** The conversation of the image route *)

Section image_conversation.

(** C3. With a non-empty string prompt and no attachments the image route
    builds the input history, turn for turn, followed by the one turn
    [{role: "user", parts: [{text: prompt}]}], and that conversation is
    what it sends to the provider. *)
Theorem C3_history_then_prompt_turn
    (generateContent : request -> result value) (body : value) (prompt : string) :
  JS.get_opt body "prompt" = VStr prompt ->
  prompt <> "" ->
  non_empty_array (JS.get_opt body "images") = false ->
  let conversation :=
    history_of body ++
      [VObj [("role", VStr "user");
             ("parts", VArr [VObj [("text", VStr prompt)]])]] in
  (exists m, ImageRoute.build body = Ok m /\ snapshot m = conversation)
  /\ ImageRoute.POST generateContent body =
       run (response ← generateContent
                         (Request IMAGE_MODEL conversation
                                  (Some (ImageRoute.config body)));
            ImageRoute.normalize response).
Proof.
  intros Hp Hne Himg conversation.
  assert (ImageRoute.userParts body = Ok [text_part (VStr prompt)]) as Hparts.
  { unfold ImageRoute.userParts. rewrite Hp.
    by destruct (JS.get_opt body "images") as [| | | | |[|i r]|]. }
  destruct (image_build_ok body _ Hparts) as (Hb & _ & Hs).
  split; [eexists; split; [exact Hb | exact Hs]|].
  unfold ImageRoute.POST. rewrite Hp.
  destruct prompt as [|c prompt]; [done|].
  cbn [JS.truthy JS.is_string String.eqb negb orb].
  rewrite Hb, bind_Ok, Hs. reflexivity.
Qed.

Lemma C3_history_then_prompt_turn_witness :
  exists m,
    ImageRoute.build
      (VObj [("prompt", VStr "now a dog");
             ("history",
              VArr [VObj [("role", VStr "user");
                          ("parts", VArr [VObj [("text", VStr "a cat")]])];
                    VObj [("role", VStr "model");
                          ("parts", VArr [VObj [("text", VStr "done")]])]])]) = Ok m
    /\ snapshot m =
         [VObj [("role", VStr "user");
                ("parts", VArr [VObj [("text", VStr "a cat")]])];
          VObj [("role", VStr "model");
                ("parts", VArr [VObj [("text", VStr "done")]])];
          VObj [("role", VStr "user");
                ("parts", VArr [VObj [("text", VStr "now a dog")]])]].
Proof.
  refine (proj1 (C3_history_then_prompt_turn (fun _ => Ok VNull)
                   (VObj [("prompt", VStr "now a dog");
                          ("history",
                           VArr [VObj [("role", VStr "user");
                                       ("parts", VArr [VObj [("text", VStr "a cat")]])];
                                 VObj [("role", VStr "model");
                                       ("parts", VArr [VObj [("text", VStr "done")]])]])])
                   "now a dog" eq_refl _ eq_refl)).
  discriminate.
Defined.

(** C4. With n >= 1 attachments the new user turn of the image route has
    n + 1 parts: the text part [{text: prompt}] with the prompt, then one
    inline image per attachment in the order given, each with the
    attachment's media type, or "image/png" where the attachment has
    none. *)
Theorem C4_text_then_images (body : value) (images : list value) :
  JS.get_opt body "images" = VArr images ->
  (1 <= length images)%nat ->
  Forall present images ->
  exists m parts,
    ImageRoute.build body = Ok m
    /\ snapshot m =
         history_of body ++ [VObj [("role", VStr "user"); ("parts", VArr parts)]]
    /\ length parts = S (length images)
    /\ parts =
         VObj [("text", JS.get_opt body "prompt")] :: (Spec.inline_image <$> images)
    /\ (forall prompt,
           JS.get_opt body "prompt" = VStr prompt ->
           parts !! 0%nat = Some (VObj [("text", VStr prompt)]))
    /\ forall i a,
        images !! i = Some a ->
        parts !! S i = Some (Spec.inline_image a)
        /\ (JS.member a "mimeType" = VUndefined ->
            parts !! S i =
              Some (VObj [("inlineData",
                           VObj [("data", JS.member a "data");
                                 ("mimeType", VStr "image/png")])])).
Proof.
  intros Hi Hn Hall.
  assert (ImageRoute.userParts body =
            Ok (text_part (JS.get_opt body "prompt") :: (Spec.inline_image <$> images)))
    as Hparts.
  { unfold ImageRoute.userParts, ImageRoute.imageParts. rewrite Hi.
    destruct images as [|a r]; [simpl in Hn; lia|].
    by rewrite mapR_inline_of, bind_Ok. }
  destruct (image_build_ok body _ Hparts) as (Hb & _ & Hs).
  exists (push_new
            (user_turn (text_part (JS.get_opt body "prompt")
                          :: (Spec.inline_image <$> images)))
            (copy_history (JS.get_opt body "history"))),
         (VObj [("text", JS.get_opt body "prompt")] :: (Spec.inline_image <$> images)).
  split; [exact Hb|]. split; [exact Hs|].
  split; [simpl; by rewrite length_fmap|]. split; [reflexivity|].
  split; [by intros prompt ->|].
  intros i a Ha.
  assert ((VObj [("text", JS.get_opt body "prompt")] :: (Spec.inline_image <$> images))
            !! S i = Some (Spec.inline_image a)) as Hl.
  { simpl. by rewrite list_lookup_fmap, Ha. }
  split; [exact Hl|].
  intros Hm. rewrite Hl. unfold Spec.inline_image. by rewrite Hm.
Qed.

Lemma C4_text_then_images_witness :
  exists m,
    ImageRoute.build
      (VObj [("prompt", VStr "merge these");
             ("images",
              VArr [VObj [("data", VStr "QUJD"); ("mimeType", VStr "image/jpeg")];
                    VObj [("data", VStr "REVG")]])]) = Ok m
    /\ snapshot m =
         [VObj [("role", VStr "user");
                ("parts",
                 VArr [VObj [("text", VStr "merge these")];
                       VObj [("inlineData",
                              VObj [("data", VStr "QUJD");
                                    ("mimeType", VStr "image/jpeg")])];
                       VObj [("inlineData",
                              VObj [("data", VStr "REVG");
                                    ("mimeType", VStr "image/png")])]])]].
Proof.
  destruct (C4_text_then_images
              (VObj [("prompt", VStr "merge these");
                     ("images",
                      VArr [VObj [("data", VStr "QUJD"); ("mimeType", VStr "image/jpeg")];
                            VObj [("data", VStr "REVG")]])])
              _ eq_refl) as (m & parts & H).
  - simpl. lia.
  - repeat constructor.
  - exists m. destruct H as (Hb & Hs & _ & -> & _). by split.
Defined.

End image_conversation.

(** ** The conversation of the text route *)

Section text_conversation.

Lemma with_prompt_snapshot (body : value) :
  snapshot (TextRoute.with_prompt body) = so_far body.
Proof.
  rewrite snapshot_linked by apply with_prompt_linked.
  apply with_prompt_objects.
Qed.

Lemma text_build_files (body : value) (f : value) (fs : list value) :
  JS.get_opt body "files" = VArr (f :: fs) ->
  Forall present (f :: fs) ->
  TextRoute.build body =
    TextRoute.attach (Spec.inline_image <$> f :: fs) (TextRoute.with_prompt body).
Proof.
  intros Hf Hall. unfold TextRoute.build, TextRoute.inlineParts.
  by rewrite Hf, mapR_inline_of, bind_Ok.
Qed.

Lemma text_build_no_files (body : value) :
  non_empty_array (JS.get_opt body "files") = false ->
  TextRoute.build body = Ok (TextRoute.with_prompt body).
Proof.
  unfold TextRoute.build.
  by destruct (JS.get_opt body "files") as [| | | | |[|f fs]|].
Qed.



End text_conversation.

(** ** What a build does to the turns of the history *)

Section history_frame.

Lemma mapR_length {A B : Type} (f : A -> result B) (l : list A) (l' : list B) :
  mapR f l = Ok l' -> length l' = length l.
Proof.
  revert l'. induction l as [|x r IH]; intros l'; simpl; [by intros [= <-]|].
  destruct (f x) as [y|]; [|done]. rewrite bind_Ok.
  destruct (mapR f r) as [ys|]; [|done]. rewrite bind_Ok.
  intros [= <-]. simpl. by rewrite (IH ys).
Qed.

Lemma empty_or_snoc {A : Type} (l : list A) :
  l = [] \/ exists before x, l = before ++ [x].
Proof. destruct l as [|x r _] using rev_ind; eauto. Qed.

(** The two things [attach] can do to the memory: allocate a new last
    turn, or write into the parts of the last turn, of role "user". *)
Lemma attach_objects (parts : list value) (m m' : memory) :
  linked m ->
  TextRoute.attach parts m = Ok m' ->
  objects m' = objects m ++ [user_turn parts]
  \/ exists before lastT old,
      objects m = before ++ [lastT]
      /\ JS.get_opt lastT "role" = VStr "user"
      /\ JS.member lastT "parts" = VArr old
      /\ objects m' = before ++ [with_parts lastT (old ++ parts)].
Proof.
  intros Hm Ha.
  destruct (empty_or_snoc (objects m)) as [Ho | (before & lastT & Ho)].
  - rewrite (attach_empty _ _ Hm Ho) in Ha. injection Ha as <-. by left.
  - destruct (JS.strict_eq_str (JS.get_opt lastT "role") "user") eqn:E.
    + apply strict_eq_str_spec in E.
      destruct (JS.isArray (JS.member lastT "parts")) eqn:Hp.
      * destruct (JS.member lastT "parts") as [| | | | |old|] eqn:Hparts; try done.
        rewrite (attach_user _ _ _ _ _ Hm Ho E Hparts) in Ha.
        injection Ha as <-. right. by exists before, lastT, old.
      * by rewrite (attach_user_throws _ _ _ _ Hm Ho E Hp) in Ha.
    + assert (JS.get_opt lastT "role" <> VStr "user") as Hrole.
      { intros H. apply strict_eq_str_spec in H. congruence. }
      rewrite (attach_not_user _ _ _ _ Hm Ho Hrole) in Ha.
      injection Ha as <-. by left.
Qed.

Lemma C6_counterexample : ~ history_untouched TextRoute.build trailing_user_body.
Proof.
  intros H.
  specialize (H _ 0%nat (user_turn [text_part (VStr "hi")]) eq_refl eq_refl).
  discriminate H.
Qed.

(** What the caller's turn has become. *)
Example trailing_user_turn_after :
  exists m,
    TextRoute.build trailing_user_body = Ok m
    /\ deref m 0 =
         user_turn [text_part (VStr "hi");
                    VObj [("inlineData",
                           VObj [("data", VStr "QUJD");
                                 ("mimeType", VStr "image/png")])]].
Proof. eexists. split; reflexivity. Qed.

Lemma mapR_inline_of_inv (l parts : list value) :
  mapR inline_of l = Ok parts -> parts = Spec.inline_image <$> l.
Proof.
  revert parts. induction l as [|a r IH]; intros parts; cbn [mapR].
  - by intros [= <-].
  - destruct (JS.nullish a) eqn:Ha.
    + unfold inline_of, JS.get. by rewrite Ha.
    + rewrite inline_of_ok, bind_Ok by done.
      destruct (mapR inline_of r) as [ps|]; [|done]. rewrite bind_Ok.
      intros [= <-]. by rewrite (IH ps).
Qed.

(** C6, amended. The image route leaves every turn object of the history
    as it was.  So does the text route, except for the last turn of the
    history when no prompt turn is added, files are given and that turn
    has role "user": then the inline parts of the files, one per file in
    order, are appended to its own parts, and the turns before it are as
    they were. *)
Theorem C6_history_turns_kept (body : value) :
  (forall m i turn,
      ImageRoute.build body = Ok m ->
      history_of body !! i = Some turn ->
      objects m !! i = Some turn)
  /\ (forall m i turn,
         TextRoute.build body = Ok m ->
         history_of body !! i = Some turn ->
         (S i < length (history_of body))%nat
         \/ has_prompt body = true
         \/ non_empty_array (JS.get_opt body "files") = false
         \/ JS.get_opt turn "role" <> VStr "user" ->
         objects m !! i = Some turn)
  /\ (forall m before lastT files,
         TextRoute.build body = Ok m ->
         history_of body = before ++ [lastT] ->
         has_prompt body = false ->
         JS.get_opt body "files" = VArr files ->
         files <> [] ->
         JS.get_opt lastT "role" = VStr "user" ->
         exists old,
           JS.member lastT "parts" = VArr old
           /\ JS.member (deref m (length before)) "parts" =
                VArr (old ++ (Spec.inline_image <$> files))
           /\ JS.member (deref m (length before)) "role" = VStr "user"
           /\ objects m !! length before =
                Some (with_parts lastT (old ++ (Spec.inline_image <$> files)))
           /\ forall i turn, before !! i = Some turn -> objects m !! i = Some turn).
Proof.
  pose proof (with_prompt_linked body) as Hl.
  pose proof (with_prompt_objects body) as Ho. fold (has_prompt body) in Ho.
  split; [|split].
  - intros m i turn Hb Hi. unfold ImageRoute.build in Hb.
    destruct (ImageRoute.userParts body) as [parts|] eqn:Hp; [|done].
    destruct (image_build_ok body parts Hp) as (Hb' & Hobj & _).
    rewrite bind_Ok in Hb. injection Hb as <-.
    simpl. rewrite objects_copy_history. by apply lookup_app_l_Some.
  - intros m i turn Hb Hi Hcase.
    assert (objects (TextRoute.with_prompt body) !! i = Some turn) as Hi0.
    { rewrite Ho. by apply lookup_app_l_Some. }
    destruct (non_empty_array (JS.get_opt body "files")) eqn:Hf.
    + unfold TextRoute.build in Hb.
      destruct (JS.get_opt body "files") as [| | | | |[|f fs]|]; try done.
      destruct (TextRoute.inlineParts (f :: fs)) as [parts|]; [|done].
      rewrite bind_Ok in Hb.
      destruct (attach_objects _ _ _ Hl Hb)
        as [-> | (before & lastT & old & Hobj & Hrole & Hparts & ->)].
      { by apply lookup_app_l_Some. }
      rewrite Hobj in Hi0.
      apply lookup_lt_Some in Hi as Hlt.
      destruct (decide (i = length before)) as [->|Hne].
      * exfalso. rewrite list_lookup_middle in Hi0 by done.
        injection Hi0 as ->.
        destruct Hcase as [Hc | [Hc | [Hc | Hc]]]; try done.
        -- assert (length (objects (TextRoute.with_prompt body))
                   = S (length before)) as Hlen.
           { rewrite Hobj, length_app. simpl. lia. }
           rewrite Ho, length_app in Hlen. lia.
        -- rewrite Ho, Hc in Hobj.
           apply app_inj_tail in Hobj as [Hh _]. rewrite Hh in Hlt. lia.
      * apply lookup_lt_Some in Hi0 as Hlt0. rewrite length_app in Hlt0.
        simpl in Hlt0.
        rewrite lookup_app_l by lia. rewrite lookup_app_l in Hi0 by lia. done.
    + rewrite (text_build_no_files _ Hf) in Hb. by injection Hb as <-.
  - intros m before lastT files Hb Hh Hnp Hf Hne Hrole.
    rewrite Hnp, app_nil_r, Hh in Ho.
    unfold TextRoute.build in Hb. rewrite Hf in Hb.
    destruct files as [|f fs]; [done|].
    destruct (TextRoute.inlineParts (f :: fs)) as [parts|] eqn:Hparts; [|done].
    rewrite bind_Ok in Hb.
    apply mapR_inline_of_inv in Hparts as ->.
    destruct (JS.isArray (JS.member lastT "parts")) eqn:Harr.
    + destruct (JS.member lastT "parts") as [| | | | |old|] eqn:Hold; try done.
      rewrite (attach_user _ _ _ _ _ Hl Ho Hrole Hold) in Hb.
      injection Hb as <-. exists old.
      split; [done|]. unfold deref. cbn [objects].
      rewrite list_lookup_middle by done. cbn [default from_option id].
      split; [by eapply with_parts_parts|]. split.
      { rewrite with_parts_other by done. by rewrite <- get_opt_member. }
      split; [done|].
      intros i turn Hi. by apply lookup_app_l_Some.
    + by rewrite (attach_user_throws _ _ _ _ Hl Ho Hrole Harr) in Hb.
Qed.

Lemma C6_history_turns_kept_witness :
  (exists m,
      TextRoute.build model_last_body = Ok m
      /\ objects m !! 0%nat =
           Some (VObj [("role", VStr "user");
                       ("parts", VArr [VObj [("text", VStr "hi")]])]))
  /\ (exists m,
         TextRoute.build
           (VObj [("history",
                   VArr [VObj [("role", VStr "user");
                               ("parts", VArr [VObj [("text", VStr "hi")]])]]);
                  ("files", VArr [VObj [("data", VStr "QUJD")]])]) = Ok m
         /\ objects m !! 0%nat =
              Some (VObj [("role", VStr "user");
                          ("parts",
                           VArr [VObj [("text", VStr "hi")];
                                 VObj [("inlineData",
                                        VObj [("data", VStr "QUJD");
                                              ("mimeType", VStr "image/png")])]])])).
Proof.
  split.
  - eexists. split; [reflexivity|].
    refine (proj1 (proj2 (C6_history_turns_kept model_last_body))
              _ 0%nat _ eq_refl eq_refl _).
    left. simpl. lia.
  - destruct (proj2 (proj2 (C6_history_turns_kept
                              (VObj [("history",
                                      VArr [VObj [("role", VStr "user");
                                                  ("parts",
                                                   VArr [VObj [("text", VStr "hi")]])]]);
                                     ("files", VArr [VObj [("data", VStr "QUJD")]])])))
                _ []
                (VObj [("role", VStr "user");
                       ("parts", VArr [VObj [("text", VStr "hi")]])])
                [VObj [("data", VStr "QUJD")]]
                eq_refl eq_refl eq_refl eq_refl ltac:(discriminate) eq_refl)
      as (old & Hold & _ & _ & Hobj & _).
    injection Hold as <-.
    eexists. split; [reflexivity|]. exact Hobj.
Defined.

End history_frame.

(** ** The answers of the text route *)

Section text_answers.

Variable generateContent : request -> result value.

Lemma text_post_built (body : value) (m : memory) :
  TextRoute.build body = Ok m ->
  objects m <> [] ->
  TextRoute.POST generateContent body =
    run (response ← generateContent (Request TEXT_MODEL (objects m) None);
         text ← TextRoute.text_of response;
         Ok (Respond 200 (VObj [("text", VStr text)]))).
Proof.
  intros Hb Hne. unfold TextRoute.POST. rewrite Hb, bind_Ok.
  pose proof (text_build_linked _ _ Hb) as Hl.
  rewrite (snapshot_linked _ Hl). rewrite Hl, length_seq.
  by destruct (objects m).
Qed.

Lemma run_forward_not_400 (r : result value) :
  status_of (run (response ← r;
                  text ← TextRoute.text_of response;
                  Ok (Respond 200 (VObj [("text", VStr text)])))) <> 400.
Proof.
  destruct r as [response|]; [|done]. rewrite bind_Ok.
  by destruct (TextRoute.text_of response).
Qed.

(** The route answers 400 exactly when [contents] is empty: no history
    turn, no prompt, no files. *)
Lemma text_rejection_iff (body : value) :
  status_of (TextRoute.POST generateContent body) = 400
  <-> history_of body = []
      /\ has_prompt body = false
      /\ non_empty_array (JS.get_opt body "files") = false.
Proof.
  pose proof (with_prompt_linked body) as Hl.
  pose proof (with_prompt_objects body) as Ho. fold (has_prompt body) in Ho.
  split.
  - intros H400.
    destruct (TextRoute.build body) as [m|] eqn:Hb;
      [|by unfold TextRoute.POST in H400; rewrite Hb in H400].
    destruct (objects m) as [|t r] eqn:Hobj.
    + destruct (non_empty_array (JS.get_opt body "files")) eqn:Hf.
      * unfold TextRoute.build in Hb.
        destruct (JS.get_opt body "files") as [| | | | |[|f fs]|]; try done.
        destruct (TextRoute.inlineParts (f :: fs)) as [parts|]; [|done].
        rewrite bind_Ok in Hb.
        destruct (attach_objects _ _ _ Hl Hb)
          as [H | (before & lastT & old & _ & _ & _ & H)];
          rewrite Hobj in H; symmetry in H; by apply app_eq_nil in H as [_ ?].
      * rewrite (text_build_no_files _ Hf) in Hb. injection Hb as <-.
        rewrite Ho in Hobj. apply app_eq_nil in Hobj as [Hh Hp].
        split; [done|]. split; [|done]. by destruct (has_prompt body).
    + exfalso. rewrite (text_post_built body m Hb) in H400 by by rewrite Hobj.
      by apply run_forward_not_400 in H400.
  - intros (Hh & Hp & Hf).
    unfold TextRoute.POST. rewrite (text_build_no_files _ Hf), bind_Ok.
    rewrite Hl, length_seq, Ho, Hh, Hp. done.
Qed.

(** The history alone is forwarded to the provider. *)
Lemma history_only_is_forwarded :
  TextRoute.POST generateContent history_only_body =
    run (response ← generateContent
                      (Request TEXT_MODEL
                               [user_turn [text_part (VStr "hello")]] None);
         text ← TextRoute.text_of response;
         Ok (Respond 200 (VObj [("text", VStr text)]))).
Proof. reflexivity. Qed.

(** C5, amended. The text route answers 400, with the error "Provide a
    prompt or files", exactly when the conversation it assembled is
    empty: no prompt, no files and no turn in the history.  With a prompt,
    with files, or with a history that has a turn, it does not answer
    400. *)
Theorem C5_rejects_empty_conversation (body : value) :
  (history_of body = [] ->
   has_prompt body = false ->
   non_empty_array (JS.get_opt body "files") = false ->
   TextRoute.POST generateContent body = rejection)
  /\ (has_prompt body = true
      \/ non_empty_array (JS.get_opt body "files") = true
      \/ history_of body <> [] ->
      status_of (TextRoute.POST generateContent body) <> 400).
Proof.
  split.
  - intros Hh Hp Hf.
    pose proof (with_prompt_linked body) as Hl.
    pose proof (with_prompt_objects body) as Ho. fold (has_prompt body) in Ho.
    unfold TextRoute.POST. rewrite (text_build_no_files _ Hf), bind_Ok.
    rewrite Hl, length_seq, Ho, Hh, Hp. done.
  - intros Hcase H400. apply text_rejection_iff in H400 as (Hh & Hp & Hf).
    destruct Hcase as [Hc | [Hc | Hc]]; congruence.
Qed.

Lemma keep_text_step (kept : list value) (p : value) :
  JS.nullish p = false ->
  TextRoute.keep_text kept p =
    Ok (if JS.truthy (JS.member p "text") then kept ++ [p] else kept).
Proof. intros Hp. unfold TextRoute.keep_text. by rewrite get_not_nullish. Qed.

Lemma keep_text_throws (kept : list value) (p : value) (e : exn) :
  TextRoute.keep_text kept p = Throw e -> e = TypeError.
Proof.
  unfold TextRoute.keep_text, JS.get.
  destruct (JS.nullish p); [by intros [= <-] | done].
Qed.

Lemma keep_text_loop (ps kept : list value) :
  Forall present ps ->
  foldR TextRoute.keep_text ps kept =
    Ok (kept ++ filter (fun p => JS.truthy (JS.member p "text") = true) ps).
Proof.
  intros Hall. revert kept.
  induction Hall as [|p r Hp _ IH]; intros kept.
  - simpl. by rewrite app_nil_r.
  - cbn [foldR]. rewrite keep_text_step, bind_Ok, IH by done.
    rewrite filter_cons.
    destruct (decide (JS.truthy (JS.member p "text") = true)) as [Ht|Ht].
    + by rewrite Ht, <- app_assoc.
    + by apply not_true_is_false in Ht as ->.
Qed.

Lemma mapR_texts (kept : list value) :
  Forall present kept ->
  mapR (fun p => JS.get p "text") kept = Ok ((fun p => JS.member p "text") <$> kept).
Proof.
  induction 1 as [|p r Hp _ IH]; [done|].
  cbn [mapR]. by rewrite get_not_nullish, bind_Ok, IH, bind_Ok by done.
Qed.

Lemma text_of_parts (response : value) (ps : list value) :
  TextRoute.parts_of response = VArr ps ->
  Forall present ps ->
  TextRoute.text_of response = Ok (JS.join_values newline (Spec.text_fields ps)).
Proof.
  intros Hp Hall. unfold TextRoute.text_of. rewrite Hp.
  rewrite keep_text_loop, bind_Ok by done. simpl.
  rewrite mapR_texts; [done|].
  apply Forall_forall. intros p [_ Hin]%list_elem_of_filter.
  by eapply Forall_forall in Hall.
Qed.

Lemma foldR_keep_text_throws (ps kept : list value) (e : exn) :
  foldR TextRoute.keep_text ps kept = Throw e -> e = TypeError.
Proof.
  revert kept. induction ps as [|p r IH]; intros kept; [done|].
  cbn [foldR].
  destruct (TextRoute.keep_text kept p) as [kept'|e'] eqn:Hk.
  - rewrite bind_Ok. apply IH.
  - rewrite bind_Throw. intros [= <-]. by eapply keep_text_throws.
Qed.

Lemma get_throws (v : value) (k : string) (e : exn) :
  JS.get v k = Throw e -> e = TypeError.
Proof. unfold JS.get. destruct (JS.nullish v); [by intros [= <-] | done]. Qed.

Lemma mapR_get_throws (kept : list value) (e : exn) :
  mapR (fun p => JS.get p "text") kept = Throw e -> e = TypeError.
Proof.
  induction kept as [|p r IH]; [done|].
  cbn [mapR].
  destruct (JS.get p "text") as [t|e'] eqn:Hg.
  - rewrite bind_Ok.
    destruct (mapR (fun p => JS.get p "text") r) as [ts|e'] eqn:Hr; [done|].
    rewrite bind_Throw. intros [= <-]. by apply IH.
  - rewrite bind_Throw. intros [= <-]. by eapply get_throws.
Qed.

Lemma text_of_throws (response : value) (e : exn) :
  TextRoute.text_of response = Throw e -> e = TypeError.
Proof.
  unfold TextRoute.text_of.
  destruct (TextRoute.parts_of response) as [| | | | |ps|];
    try by intros [= <-].
  destruct (foldR TextRoute.keep_text ps []) as [kept|e'] eqn:Hk.
  - rewrite bind_Ok.
    destruct (mapR _ kept) as [texts|e'] eqn:Hm; [done|].
    rewrite bind_Throw. intros [= <-]. by eapply mapR_get_throws.
  - rewrite bind_Throw. intros [= <-]. by eapply foldR_keep_text_throws.
Qed.

(** The text route does not look at a top-level [parts] field. *)
Example top_level_parts_unread :
  TextRoute.text_of (VObj [("parts", VArr [VObj [("text", VStr "top")]])]) = Ok "".
Proof. reflexivity. Qed.

Lemma text_fields_truthy (ps : list value) :
  Forall (fun t => JS.truthy t = true) (Spec.text_fields ps).
Proof.
  unfold Spec.text_fields. apply Forall_fmap, Forall_forall.
  by intros p [Hp _]%list_elem_of_filter.
Qed.

Lemma parts_of_nested (response : value) :
  TextRoute.parts_of response = JS.or (nested_parts response) (VArr []).
Proof. reflexivity. Qed.

(** C9. Whatever the provider returns to the text route, the answer is
    made of the [text] fields of [candidates[0].content.parts], in order,
    concatenated with newline separators, and of nothing else: a 200 with
    only a [text] property, the empty string when those parts are absent or
    none of them has a usable text, and never the answer of a
    BlockedByPolicy or NoOutput failure.  Only parts that are not an array,
    or an array with a [null] in it, end in the [catch] block. *)
Theorem C9_text_route_joins_text_only (body : value) (m : memory) (response : value) :
  TextRoute.build body = Ok m ->
  contents m <> [] ->
  generateContent (Request TEXT_MODEL (snapshot m) None) = Ok response ->
  let answer := TextRoute.POST generateContent body in
  (JS.truthy (nested_parts response) = false ->
   answer = Respond 200 (VObj [("text", VStr "")]))
  /\ (forall ps,
         nested_parts response = VArr ps ->
         Forall present ps ->
         answer =
           Respond 200
             (VObj [("text",
                     VStr (Spec.lines (JS.to_string <$> Spec.text_fields ps)))])
         /\ (forall strings,
                Spec.text_fields ps = VStr <$> strings ->
                answer = Respond 200 (VObj [("text", VStr (Spec.lines strings))]))
         /\ (Spec.text_fields ps = [] ->
             answer = Respond 200 (VObj [("text", VStr "")])))
  /\ ((exists text, answer = Respond 200 (VObj [("text", VStr text)]))
      \/ answer = Caught TypeError)
  /\ (forall failure, answer <> Spec.surface failure)
  /\ (answer = Caught TypeError ->
      JS.truthy (nested_parts response) = true
      /\ forall ps, nested_parts response = VArr ps -> ~ Forall present ps).
Proof.
  intros Hb Hne Hgc answer.
  assert (answer =
            run (text ← TextRoute.text_of response;
                 Ok (Respond 200 (VObj [("text", VStr text)])))) as Ha.
  { subst answer. unfold TextRoute.POST. rewrite Hb, bind_Ok.
    destruct (contents m); [done|]. simpl length. cbn [Nat.eqb].
    by rewrite Hgc, bind_Ok. }
  assert ((exists text, answer = Respond 200 (VObj [("text", VStr text)]))
          \/ answer = Caught TypeError) as Hshape.
  { rewrite Ha. destruct (TextRoute.text_of response) as [text|e] eqn:Ht.
    - left. by exists text.
    - right. by rewrite (text_of_throws _ _ Ht). }
  assert (JS.truthy (nested_parts response) = false ->
          answer = Respond 200 (VObj [("text", VStr "")])) as Habsent.
  { intros Hfalsy. rewrite Ha. unfold TextRoute.text_of.
    rewrite parts_of_nested. unfold JS.or. by rewrite Hfalsy. }
  assert (forall ps,
             nested_parts response = VArr ps ->
             Forall present ps ->
             answer =
               Respond 200
                 (VObj [("text",
                         VStr (Spec.lines (JS.to_string <$> Spec.text_fields ps)))]))
    as Hjoined.
  { intros ps Hps Hall.
    rewrite Ha, (text_of_parts response ps); [|by rewrite parts_of_nested, Hps|done].
    rewrite bind_Ok. cbn [run].
    by rewrite join_values_truthy, join_lines by apply text_fields_truthy. }
  split; [exact Habsent|]. split; [|split; [exact Hshape|split]].
  - intros ps Hps Hall.
    pose proof (Hjoined ps Hps Hall) as Hans.
    split; [exact Hans|]. split.
    + intros strings Hs. rewrite Hans, Hs. by rewrite to_string_strings.
    + intros Hnone. by rewrite Hans, Hnone.
  - intros failure. destruct Hshape as [[text ->] | ->]; by destruct failure.
  - intros Hcaught. split.
    + destruct (JS.truthy (nested_parts response)) eqn:Ht; [done|].
      rewrite (Habsent eq_refl) in Hcaught. discriminate Hcaught.
    + intros ps Hps Hall. rewrite (Hjoined ps Hps Hall) in Hcaught.
      discriminate Hcaught.
Qed.

End text_answers.

Lemma C5_counterexample :
  ~ rejects_without_prompt_or_files (fun _ => Ok VNull) history_only_body.
Proof.
  intros H. specialize (H eq_refl eq_refl).
  rewrite history_only_is_forwarded in H. discriminate H.
Qed.

Lemma C5_rejects_empty_conversation_witness :
  TextRoute.POST (fun _ => Ok VNull) (VObj []) = rejection
  /\ status_of (TextRoute.POST (fun _ => Ok VNull) history_only_body) <> 400.
Proof.
  split.
  - exact (proj1 (C5_rejects_empty_conversation (fun _ => Ok VNull) (VObj []))
             eq_refl eq_refl eq_refl).
  - refine (proj2 (C5_rejects_empty_conversation (fun _ => Ok VNull) history_only_body)
              _).
    right. right. discriminate.
Defined.

(** A response with a block reason, a finish reason and an inline image
    reaches the caller of the text route as the two texts of
    [candidates[0].content.parts], one per line. *)
Lemma C9_text_route_joins_text_only_witness :
  TextRoute.POST (fun _ => Ok hello_world_response) (VObj [("prompt", VStr "hi")]) =
    Respond 200 (VObj [("text", VStr "hello
world")]).
Proof.
  refine (proj1 (proj2 (proj1 (proj2 (C9_text_route_joins_text_only
                          (fun _ => Ok hello_world_response)
                          (VObj [("prompt", VStr "hi")]) _ hello_world_response
                          eq_refl _ eq_refl))
                    [VObj [("text", VStr "hello")];
                     VObj [("inlineData",
                            VObj [("data", VStr "QUJD");
                                  ("mimeType", VStr "image/jpeg")])];
                     VObj [("text", VStr "world")]] eq_refl _))
            ["hello"; "world"] eq_refl).
  - discriminate.
  - repeat constructor.
Defined.

(** A blocked response without parts, as in C1, reaches the caller of the
    text route as an empty text. *)
Example blocked_response_text :
  TextRoute.POST (fun _ => Ok blocked_response) (VObj [("prompt", VStr "hi")]) =
    Respond 200 (VObj [("text", VStr "")]).
Proof. reflexivity. Qed.

(** * Further properties of the routes *)

Section route_answers.

Variable generateContent : request -> result value.

Lemma normalize_status (response : value) (o : outcome) :
  ImageRoute.normalize response = Ok o -> status_of o = 200 \/ status_of o = 500.
Proof.
  unfold ImageRoute.normalize.
  destruct (ImageRoute.collect response) as [out|]; [|done]. rewrite bind_Ok.
  destruct (_ && _); intros [= <-]; simpl; auto.
Qed.

Lemma image_post_with_prompt (body : value) :
  has_prompt body = true ->
  ImageRoute.POST generateContent body =
    run (m ← ImageRoute.build body;
         response ← generateContent
                      (Request IMAGE_MODEL (snapshot m)
                               (Some (ImageRoute.config body)));
         ImageRoute.normalize response).
Proof.
  unfold has_prompt, ImageRoute.POST.
  destruct (JS.truthy _), (JS.is_string _); done.
Qed.

Lemma image_post_status (body : value) :
  has_prompt body = true ->
  status_of (ImageRoute.POST generateContent body) = 200
  \/ status_of (ImageRoute.POST generateContent body) = 500.
Proof.
  intros Hp. rewrite (image_post_with_prompt _ Hp).
  destruct (ImageRoute.build body) as [m|]; [|by right]. rewrite bind_Ok.
  destruct (generateContent _) as [response|]; [|by right]. rewrite bind_Ok.
  destruct (ImageRoute.normalize response) as [o|] eqn:Hn; [|by right].
  by apply normalize_status in Hn.
Qed.

(** The image route answers 400 "Prompt is required" exactly to a request
    whose prompt is not a non-empty string, without consulting the
    provider; every other request is answered 200 or 500. *)
Theorem image_route_statuses (body : value) :
  (has_prompt body = false ->
   ImageRoute.POST generateContent body =
     Respond 400 (VObj [("error", VStr "Prompt is required")]))
  /\ (has_prompt body = true ->
      status_of (ImageRoute.POST generateContent body) = 200
      \/ status_of (ImageRoute.POST generateContent body) = 500).
Proof.
  split.
  - unfold has_prompt, ImageRoute.POST.
    destruct (JS.truthy _), (JS.is_string _); done.
  - apply image_post_status.
Qed.

Lemma mapR_inline_of_throws (l : list value) :
  Exists (fun a => JS.nullish a = true) l ->
  mapR inline_of l = Throw TypeError.
Proof.
  induction l as [|a r IH]; intros Hex; [by apply Exists_nil in Hex|].
  cbn [mapR]. destruct (JS.nullish a) eqn:Ha.
  - unfold inline_of, JS.get. by rewrite Ha.
  - rewrite inline_of_ok, bind_Ok by done.
    apply Exists_cons in Hex as [Hex|Hex]; [congruence|].
    by rewrite IH.
Qed.

(** An attachment that is [null] or [undefined] makes either route answer
    through its [catch] block with a TypeError, status 500; the provider
    is not consulted. *)
Theorem null_attachment_is_caught (body : value) (items : list value) :
  Exists (fun a => JS.nullish a = true) items ->
  (JS.get_opt body "images" = VArr items ->
   has_prompt body = true ->
   ImageRoute.POST generateContent body = Caught TypeError)
  /\ (JS.get_opt body "files" = VArr items ->
      TextRoute.POST generateContent body = Caught TypeError).
Proof.
  intros Hex.
  assert (exists a r, items = a :: r) as (a & r & ->).
  { destruct items; [by apply Exists_nil in Hex | eauto]. }
  split.
  - intros Hi Hp. rewrite (image_post_with_prompt _ Hp).
    unfold ImageRoute.build, ImageRoute.userParts, ImageRoute.imageParts.
    by rewrite Hi, mapR_inline_of_throws.
  - intros Hf. unfold TextRoute.POST, TextRoute.build, TextRoute.inlineParts.
    by rewrite Hf, mapR_inline_of_throws.
Qed.

(** Files sent after a last turn of role "user" that has no [parts] array:
    the text route cannot attach them and answers through its [catch]
    block, whatever the provider. *)
Theorem files_after_turn_without_parts
    (body f : value) (fs before : list value) (lastT : value) :
  JS.get_opt body "files" = VArr (f :: fs) ->
  Forall present (f :: fs) ->
  so_far body = before ++ [lastT] ->
  JS.get_opt lastT "role" = VStr "user" ->
  JS.isArray (JS.member lastT "parts") = false ->
  TextRoute.POST generateContent body = Caught TypeError.
Proof.
  intros Hf Hall Hs Hrole Hparts.
  unfold TextRoute.POST. rewrite (text_build_files _ _ _ Hf Hall).
  erewrite attach_user_throws; [done | apply with_prompt_linked | | done | done].
  rewrite with_prompt_objects. exact Hs.
Qed.

(** With a prompt and no files the text route sends the history followed by
    one user turn holding the prompt. *)
Theorem text_route_prompt_turn (body : value) (prompt : string) :
  JS.get_opt body "prompt" = VStr prompt ->
  prompt <> "" ->
  non_empty_array (JS.get_opt body "files") = false ->
  TextRoute.POST generateContent body =
    run (response ← generateContent
                      (Request TEXT_MODEL
                               (history_of body ++ [user_turn [text_part (VStr prompt)]])
                               None);
         text ← TextRoute.text_of response;
         Ok (Respond 200 (VObj [("text", VStr text)]))).
Proof.
  intros Hp Hne Hf.
  assert (has_prompt body = true) as Hhas.
  { unfold has_prompt. rewrite Hp. by destruct prompt. }
  pose proof (with_prompt_objects body) as Ho.
  fold (has_prompt body) in Ho. rewrite Hhas, Hp in Ho.
  rewrite (text_post_built generateContent body _ (text_build_no_files _ Hf)).
  - by rewrite Ho.
  - rewrite Ho. by destruct (history_of body).
Qed.

End route_answers.

Lemma image_route_statuses_witness :
  ImageRoute.POST (fun _ => Ok one_image_response) (VObj [("prompt", VNum 7)]) =
    Respond 400 (VObj [("error", VStr "Prompt is required")])
  /\ (status_of (ImageRoute.POST (fun _ => Ok one_image_response) prompt_only_body) = 200
      \/ status_of (ImageRoute.POST (fun _ => Ok one_image_response) prompt_only_body) = 500).
Proof.
  split.
  - exact (proj1 (image_route_statuses _ (VObj [("prompt", VNum 7)])) eq_refl).
  - exact (proj2 (image_route_statuses _ prompt_only_body) eq_refl).
Defined.

Lemma null_attachment_is_caught_witness :
  ImageRoute.POST (fun _ => Ok one_image_response)
    (VObj [("prompt", VStr "edit"); ("images", VArr [VNull])]) = Caught TypeError
  /\ TextRoute.POST (fun _ => Ok one_image_response)
       (VObj [("prompt", VStr "look"); ("files", VArr [VObj []; VNull])]) =
     Caught TypeError.
Proof.
  split.
  - refine (proj1 (null_attachment_is_caught _
                     (VObj [("prompt", VStr "edit"); ("images", VArr [VNull])])
                     [VNull] _) eq_refl eq_refl).
    by left.
  - refine (proj2 (null_attachment_is_caught _
                     (VObj [("prompt", VStr "look"); ("files", VArr [VObj []; VNull])])
                     [VObj []; VNull] _) eq_refl).
    right. by left.
Defined.

Lemma files_after_turn_without_parts_witness :
  TextRoute.POST (fun _ => Ok one_image_response)
    (VObj [("history", VArr [VObj [("role", VStr "user")]]);
           ("files", VArr [VObj [("data", VStr "QUJD")]])]) = Caught TypeError.
Proof.
  refine (files_after_turn_without_parts _
            (VObj [("history", VArr [VObj [("role", VStr "user")]]);
                   ("files", VArr [VObj [("data", VStr "QUJD")]])])
            _ _ [] (VObj [("role", VStr "user")]) eq_refl _ eq_refl eq_refl eq_refl).
  repeat constructor.
Defined.

Lemma text_route_prompt_turn_witness :
  TextRoute.POST (fun _ => Ok hello_jpeg) prompt_only_body =
    Respond 200 (VObj [("text", VStr "hello")]).
Proof.
  refine (text_route_prompt_turn (fun _ => Ok hello_jpeg) prompt_only_body
            "now a dog" eq_refl _ eq_refl).
  discriminate.
Defined.

Section normalizer_answers.

Lemma or_truthy (a b : value) : JS.truthy b = true -> JS.truthy (JS.or a b) = true.
Proof. unfold JS.or. by destruct (JS.truthy a) eqn:Ha. Qed.

Lemma classify_sound (out out' : ImageRoute.outputs) (part : value) :
  outputs_sound out ->
  ImageRoute.classify out part = Ok out' ->
  outputs_sound out'.
Proof.
  intros [Hi Ht] Hc.
  destruct (JS.nullish part) eqn:Hp.
  { unfold ImageRoute.classify, JS.get in Hc. by rewrite Hp in Hc. }
  rewrite classify_step in Hc by done. injection Hc as <-.
  unfold Spec.classify.
  destruct (JS.truthy (JS.get_opt (JS.member part "inlineData") "data")) eqn:Hd.
  - split; [|done]. simpl. apply Forall_app. split; [done|].
    constructor; [|constructor].
    eexists _, _. split; [done|]. split; [done|]. by apply or_truthy.
  - destruct (JS.truthy (JS.member part "text")) eqn:Htext; [|done].
    split; [done|]. simpl. apply Forall_app. split; [done|]. by constructor.
Qed.

Lemma classify_loop_sound (items : list value) (out out' : ImageRoute.outputs) :
  outputs_sound out ->
  foldR ImageRoute.classify items out = Ok out' ->
  outputs_sound out'.
Proof.
  revert out. induction items as [|p r IH]; intros out Hs; [by intros [= <-]|].
  cbn [foldR].
  destruct (ImageRoute.classify out p) as [out1|] eqn:Hc; [|done].
  rewrite bind_Ok. apply IH. by eapply classify_sound.
Qed.

Lemma msg_not_empty (response : value) : ImageRoute.msg response <> "".
Proof. unfold ImageRoute.msg. by repeat destruct (JS.truthy _). Qed.

(** Whatever the provider returned, an answer of the normalizer is either a
    500 with a non-empty message or a 200 that holds at least one image or
    text; every image of a 200 has a truthy [data] and a truthy [mimeType],
    and every text joined into it is truthy. *)
Theorem normalize_answers (response : value) (o : outcome) :
  ImageRoute.normalize response = Ok o ->
  (exists message,
      o = Respond 500 (VObj [("error", VStr message)]) /\ message <> "")
  \/ (exists images texts,
         o = Respond 200 (VObj [("images", VArr images);
                                ("text", VStr (JS.join_values newline texts))])
         /\ (images <> [] \/ texts <> [])
         /\ Forall reported_image images
         /\ Forall (fun t => JS.truthy t = true) texts).
Proof.
  unfold ImageRoute.normalize.
  destruct (ImageRoute.collect response) as [out|] eqn:Hc; [|done].
  rewrite bind_Ok.
  assert (outputs_sound out) as [Hi Ht].
  { unfold ImageRoute.collect in Hc.
    destruct (ImageRoute.parts_of response) as [parts|]; [|done].
    rewrite bind_Ok in Hc.
    destruct (JS.iterate parts) as [items|]; [|done]. rewrite bind_Ok in Hc.
    eapply classify_loop_sound; [|exact Hc]. by split. }
  destruct out as [images texts]. simpl in *.
  destruct images as [|i images], texts as [|t texts]; simpl; intros [= <-].
  - left. eexists. split; [done|]. apply msg_not_empty.
  - right. eexists [], (t :: texts). split; [done|]. split; [by right | done].
  - right. eexists (i :: images), []. split; [done|]. split; [by left | done].
  - right. eexists (i :: images), (t :: texts).
    split; [done|]. split; [by left | done].
Qed.

End normalizer_answers.

Lemma normalize_answers_witness :
  exists images texts,
    Respond 200 (VObj [("images",
                        VArr [VObj [("data", VStr "TkVX"); ("mimeType", VStr "image/png")]]);
                       ("text", VStr "")]) =
      Respond 200 (VObj [("images", VArr images);
                         ("text", VStr (JS.join_values newline texts))])
    /\ Forall reported_image images.
Proof.
  destruct (normalize_answers one_image_response _ eq_refl)
    as [(message & H & _) | (images & texts & H & _ & Hi & _)].
  - discriminate H.
  - by exists images, texts.
Defined.

Section turn_count.

Lemma text_build_objects (body : value) (m : memory) :
  TextRoute.build body = Ok m ->
  objects m = objects (TextRoute.with_prompt body)
  \/ (exists t, objects m = objects (TextRoute.with_prompt body) ++ [t])
  \/ (exists before lastT t,
         objects (TextRoute.with_prompt body) = before ++ [lastT]
         /\ objects m = before ++ [t]).
Proof.
  intros Hb. unfold TextRoute.build in Hb.
  destruct (JS.get_opt body "files") as [| | | | |[|f fs]|];
    try (injection Hb as <-; by left).
  destruct (TextRoute.inlineParts (f :: fs)) as [parts|]; [|done].
  rewrite bind_Ok in Hb.
  destruct (attach_objects _ _ _ (with_prompt_linked body) Hb)
    as [H | (before & lastT & old & Ho & _ & _ & H)].
  - right. left. eauto.
  - right. right. eauto.
Qed.

(** A build adds at most one turn to the history: the image route always
    exactly one, the text route one or none, and exactly one when a prompt
    is given. *)
Theorem build_adds_at_most_one_turn (body : value) :
  (forall m,
      ImageRoute.build body = Ok m ->
      length (snapshot m) = S (length (history_of body)))
  /\ (forall m,
         TextRoute.build body = Ok m ->
         (length (history_of body) <= length (snapshot m)
          /\ length (snapshot m) <= S (length (history_of body)))%nat
         /\ (has_prompt body = true ->
             length (snapshot m) = S (length (history_of body)))).
Proof.
  split.
  - intros m Hb.
    destruct (ImageRoute.userParts body) as [parts|] eqn:Hp.
    + destruct (image_build_ok body parts Hp) as (Hb' & _ & Hs).
      rewrite Hb' in Hb. injection Hb as <-.
      rewrite Hs, length_app. simpl. lia.
    + unfold ImageRoute.build in Hb. by rewrite Hp in Hb.
  - intros m Hb.
    rewrite (snapshot_linked _ (text_build_linked _ _ Hb)).
    pose proof (with_prompt_objects body) as Ho. fold (has_prompt body) in Ho.
    assert (length (objects (TextRoute.with_prompt body)) =
              (length (history_of body) + if has_prompt body then 1 else 0)%nat)
      as Hlen.
    { rewrite Ho, length_app. by destruct (has_prompt body). }
    destruct (text_build_objects _ _ Hb)
      as [Hm | [(t & Hm) | (before & lastT & t & Hw & Hm)]].
    + rewrite Hm, Hlen. destruct (has_prompt body); split; try lia; done || lia.
    + apply (f_equal length) in Hm as Hlm. rewrite length_app, Hlen in Hlm.
      simpl in Hlm.
      destruct (has_prompt body) eqn:Hp; [|split; [lia | done]].
      exfalso. unfold TextRoute.build in Hb.
      destruct (JS.get_opt body "files") as [| | | | |[|f fs]|] eqn:Hf;
        try (injection Hb as Hb; apply (f_equal objects) in Hb;
             apply (f_equal length) in Hb; lia).
      destruct (TextRoute.inlineParts (f :: fs)) as [parts|]; [|done].
      rewrite bind_Ok in Hb.
      erewrite attach_user in Hb;
        [| apply with_prompt_linked | exact Ho | done | done].
      injection Hb as Hb. apply (f_equal objects) in Hb.
      apply (f_equal length) in Hb. simpl in Hb.
      rewrite !length_app in Hb. simpl in Hb. lia.
    + apply (f_equal length) in Hm. rewrite Hw in Hlen.
      rewrite length_app in Hlen, Hm. simpl in *.
      destruct (has_prompt body); split; try lia; done || lia.
Qed.

End turn_count.

Lemma build_adds_at_most_one_turn_witness :
  (exists m, TextRoute.build trailing_user_body = Ok m /\ length (snapshot m) = 1%nat)
  /\ (exists m, TextRoute.build prompt_and_files_body = Ok m
                /\ length (snapshot m) = 1%nat)
  /\ (exists m, ImageRoute.build prompt_only_body = Ok m
                /\ length (snapshot m) = 3%nat).
Proof.
  split; [|split]; eexists; (split; [reflexivity|]).
  - reflexivity.
  - exact (proj2 (proj2 (build_adds_at_most_one_turn prompt_and_files_body) _ eq_refl)
             eq_refl).
  - exact (proj1 (build_adds_at_most_one_turn prompt_only_body) _ eq_refl).
Defined.

(** * The provider client *)

Section provider_client.

Lemma calls_cached (c : Gemini.client) (keys : list (option string)) :
  Gemini.calls keys (Some c) = (replicate (length keys) (Ok c), Some c).
Proof.
  induction keys as [|k r IH]; [done|].
  cbn [Gemini.calls Gemini.getAI]. by rewrite IH.
Qed.

Lemma getAI_without_key (key : option string) :
  key = None \/ key = Some "" ->
  Gemini.getAI key None = (Throw Gemini.key_missing, None).
Proof. by intros [-> | ->]. Qed.

(** In any run of calls of [getAI] that starts without a client, the calls
    made while the key is unset or empty throw and leave nothing behind;
    the first call that finds a key builds the client, and every later call
    returns that same client, whatever the key has become. *)
Theorem getAI_keeps_first_client
    (failed : list (option string)) (a : Ascii.ascii) (k : string)
    (later : list (option string)) :
  Forall (fun key => key = None \/ key = Some "") failed ->
  Gemini.calls (failed ++ Some (String a k) :: later) None =
    (replicate (length failed) (Throw Gemini.key_missing)
       ++ replicate (S (length later)) (Ok (Gemini.Client (String a k))),
     Some (Gemini.Client (String a k))).
Proof.
  induction 1 as [|key r Hkey _ IH].
  - cbn [app Gemini.calls Gemini.getAI]. by rewrite calls_cached.
  - cbn [app Gemini.calls]. rewrite (getAI_without_key _ Hkey), IH. done.
Qed.

Variable runtime : string.
Variable sdk : Gemini.client -> request -> result value.

(** Without an API key and without a client built earlier, neither route
    reaches the provider: a request that passes the checks of its route is
    answered 500 with the error "GEMINI_API_KEY is not set in
    environment". *)
Theorem missing_key_is_a_500 (key : option string) (body : value) :
  key = None \/ key = Some "" ->
  let generateContent := Gemini.generateContent key None sdk in
  let answer := VObj [("error", VStr "GEMINI_API_KEY is not set in environment")] in
  (forall m,
      has_prompt body = true ->
      ImageRoute.build body = Ok m ->
      status_of (ImageRoute.POST generateContent body) = 500
      /\ http_body runtime (ImageRoute.POST generateContent body) = answer)
  /\ (forall m,
         TextRoute.build body = Ok m ->
         contents m <> [] ->
         status_of (TextRoute.POST generateContent body) = 500
         /\ http_body runtime (TextRoute.POST generateContent body) = answer).
Proof.
  intros Hkey generateContent answer. split.
  - intros m Hp Hb. rewrite (image_post_with_prompt _ _ Hp), Hb, bind_Ok.
    subst generateContent. unfold Gemini.generateContent.
    by rewrite (getAI_without_key _ Hkey).
  - intros m Hb Hne. unfold TextRoute.POST. rewrite Hb, bind_Ok.
    destruct (contents m); [done|]. simpl length. cbn [Nat.eqb].
    subst generateContent. unfold Gemini.generateContent.
    by rewrite (getAI_without_key _ Hkey).
Qed.

End provider_client.

Lemma getAI_keeps_first_client_witness :
  Gemini.calls [None; Some ""; Some "k1"; None; Some "k2"] None =
    ([Throw Gemini.key_missing; Throw Gemini.key_missing;
      Ok (Gemini.Client "k1"); Ok (Gemini.Client "k1"); Ok (Gemini.Client "k1")],
     Some (Gemini.Client "k1")).
Proof.
  refine (getAI_keeps_first_client [None; Some ""] _ _ [None; Some "k2"] _).
  constructor; [by left|]. constructor; [by right|]. constructor.
Defined.

Lemma missing_key_is_a_500_witness :
  http_body "" (ImageRoute.POST (Gemini.generateContent None None (fun _ _ => Ok VNull))
                                prompt_only_body) =
    VObj [("error", VStr "GEMINI_API_KEY is not set in environment")].
Proof.
  exact (proj2 (proj1 (missing_key_is_a_500 "" (fun _ _ => Ok VNull) None
                         prompt_only_body (or_introl eq_refl)) _ eq_refl eq_refl)).
Defined.

(** * The image studio *)

Section data_urls.

Import ImageStudio.

Lemma split_not_nil (sep : Ascii.ascii) (s : string) :
  exists h t, split sep s = h :: t.
Proof.
  induction s as [|c s (h & t & IH)]; simpl; [eauto|].
  destruct (Ascii.eqb c sep); [eauto|]. rewrite IH. eauto.
Qed.

Lemma split_append (sep : Ascii.ascii) (a b : string) :
  lacks sep a = true ->
  split sep (a +:+ b) =
    match split sep b with
    | h :: t => (a +:+ h) :: t
    | [] => [a]
    end.
Proof.
  destruct (split_not_nil sep b) as (h & t & Hb). rewrite Hb.
  induction a as [|c a IH]; simpl; [done|].
  intros [Hc Ha]%andb_prop. apply negb_true_iff in Hc. by rewrite Hc, (IH Ha).
Qed.

Lemma split_lacks (sep : Ascii.ascii) (s : string) :
  lacks sep s = true -> split sep s = [s].
Proof.
  induction s as [|c s IH]; simpl; [done|].
  intros [Hc Hs]%andb_prop. apply negb_true_iff in Hc. by rewrite Hc, (IH Hs).
Qed.

Lemma append_empty (a : string) : a +:+ "" = a.
Proof.
  induction a as [|c a IH]; [done|].
  change (String c (a +:+ "") = String c a). by rewrite IH.
Qed.


Lemma split_separated (sep : Ascii.ascii) (a b : string) :
  lacks sep a = true -> lacks sep b = true ->
  split sep (a +:+ String sep b) = [a; b].
Proof.
  intros Ha Hb. rewrite (split_append _ _ _ Ha). simpl.
  by rewrite Ascii.eqb_refl, (split_lacks _ _ Hb), append_empty.
Qed.



(** What [toBase64] makes of a data URL: the payload after the comma.  A
    result without payload (an empty file) or without comma is returned
    whole. *)
Theorem base64_of_data_url (header data : string) :
  lacks comma header = true ->
  lacks comma data = true ->
  (data <> "" -> base64_of (header +:+ "," +:+ data) = data)
  /\ base64_of (header +:+ ",") = header +:+ ","
  /\ base64_of header = header.
Proof.
  intros Hh Hd. unfold base64_of, second_or. split; [|split].
  - intros Hne. change ("," +:+ data) with (String comma data).
    rewrite (split_separated _ _ _ Hh Hd). by destruct data.
  - change "," with (String comma ""). by rewrite (split_separated _ _ _ Hh).
  - by rewrite (split_lacks _ _ Hh).
Qed.


End data_urls.

Lemma base64_of_data_url_witness :
  ImageStudio.base64_of "data:image/png;base64,QUJD" = "QUJD".
Proof.
  exact (proj1 (base64_of_data_url "data:image/png;base64" "QUJD" eq_refl eq_refl)
           ltac:(discriminate)).
Defined.


Section studio.

Import ImageStudio.

Variable runtime : string.

Lemma trim_not_empty (s : string) : trim s <> "" -> s <> "".
Proof. by destruct s. Qed.

Lemma encode_studio_image (f : file) (e : value) :
  encode f = Ok e -> studio_image e.
Proof.
  unfold encode, toBase64. destruct (read f) as [r|]; [|done].
  rewrite bind_Ok. intros [= <-]. eexists _, _. split; [done|].
  by destruct (type f).
Qed.

Lemma encoded_studio_images (fs : list file) (encoded : list value) :
  mapR encode fs = Ok encoded -> Forall studio_image encoded.
Proof.
  revert encoded. induction fs as [|f r IH]; intros encoded; cbn [mapR].
  - intros [= <-]. constructor.
  - destruct (encode f) as [e|] eqn:He; [|done]. rewrite bind_Ok.
    destruct (mapR encode r) as [es|]; [|done]. rewrite bind_Ok.
    intros [= <-]. constructor; [by eapply encode_studio_image | by apply IH].
Qed.

Lemma studio_images_sound (useEdit : bool) (st : state) (encoded : list value) :
  studio_images useEdit st = Ok encoded -> Forall studio_image encoded.
Proof.
  unfold studio_images. destruct useEdit.
  - apply encoded_studio_images.
  - intros [= <-]. constructor.
Qed.

Lemma wire_studio_images (encoded : list value) :
  Forall studio_image encoded -> wire <$> encoded = encoded.
Proof.
  induction 1 as [|e r (d & m & -> & _) _ IH]; [done|].
  cbn [fmap list_fmap]. by rewrite IH.
Qed.

Lemma inline_studio_images (encoded : list value) :
  Forall studio_image encoded ->
  mapR inline_of encoded = Ok ((fun e => VObj [("inlineData", e)]) <$> encoded).
Proof.
  induction 1 as [|e r (d & m & -> & Hm) _ IH]; [done|].
  cbn [mapR]. rewrite IH. destruct m; done.
Qed.

(** What the image route reads in the body the studio serialized. *)
Lemma studio_body_fields (useEdit : bool) (st : state) (encoded : list value) :
  Forall studio_image encoded ->
  let body := studio_body useEdit st encoded in
  JS.get_opt body "prompt" = VStr (prompt st)
  /\ JS.get_opt body "images" = (if useEdit then VArr encoded else VUndefined)
  /\ JS.get_opt body "history" = VUndefined
  /\ JS.get_opt body "responseType" = VStr "IMAGE"
  /\ JS.get_opt body "aspectRatio" =
       match aspectRatio st with EmptyString => VUndefined | a => VStr a end.
Proof.
  intros He. unfold studio_body, payload.
  destruct useEdit, (aspectRatio st) as [|c a]; cbn [wire];
    rewrite ?(wire_studio_images _ He); done.
Qed.

Lemma studio_route_call (generateContent : request -> result value)
    (useEdit : bool) (st : state) (encoded : list value) :
  trim (prompt st) <> "" ->
  studio_images useEdit st = Ok encoded ->
  ImageRoute.POST generateContent (studio_body useEdit st encoded) =
    run (response ← generateContent (studio_request st encoded);
         ImageRoute.normalize response).
Proof.
  intros Hp Hi. pose proof (studio_images_sound _ _ _ Hi) as He.
  destruct (studio_body_fields useEdit st encoded He) as (Fp & Fi & Fh & Ft & Fa).
  apply trim_not_empty in Hp.
  rewrite image_post_with_prompt
    by (unfold has_prompt; rewrite Fp; by destruct (prompt st)).
  assert (ImageRoute.userParts (studio_body useEdit st encoded) =
            Ok (text_part (VStr (prompt st))
                  :: ((fun e => VObj [("inlineData", e)]) <$> encoded))) as Hparts.
  { unfold ImageRoute.userParts, ImageRoute.imageParts. rewrite Fp, Fi.
    destruct useEdit.
    - destruct encoded as [|e r]; [done|].
      by rewrite (inline_studio_images _ He), bind_Ok.
    - unfold studio_images in Hi. by injection Hi as <-. }
  destruct (image_build_ok _ _ Hparts) as (Hb & _ & Hs).
  rewrite Hb, bind_Ok, Hs. unfold history_of. rewrite Fh.
  unfold ImageRoute.config. rewrite Ft, Fa. unfold studio_request.
  by destruct (aspectRatio st).
Qed.

(** With a blank prompt [send] does nothing at all.  With any other prompt
    the body it serializes passes the check of the image route: the studio
    is never answered 400 "Prompt is required". *)
Theorem studio_prompt_guard (generateContent : request -> result value)
    (useEdit : bool) (st : state) :
  (trim (prompt st) = "" ->
   forall fetch, send runtime fetch useEdit st = Ok st)
  /\ (trim (prompt st) <> "" ->
      forall encoded,
        Forall studio_image encoded ->
        status_of (ImageRoute.POST generateContent (studio_body useEdit st encoded))
          <> 400).
Proof.
  split.
  - intros Hb fetch. unfold send. by rewrite Hb.
  - intros Hp encoded He.
    destruct (studio_body_fields useEdit st encoded He) as (Fp & _).
    apply trim_not_empty in Hp.
    assert (has_prompt (studio_body useEdit st encoded) = true) as Hhas.
    { unfold has_prompt. rewrite Fp. by destruct (prompt st). }
    destruct (image_post_status generateContent _ Hhas) as [-> | ->]; done.
Qed.

End studio.

Section studio_sends.

Import ImageStudio.

Variable runtime : string.

Lemma or_string (s : string) (b : value) : s <> "" -> JS.or (VStr s) b = VStr s.
Proof. by destruct s. Qed.

Lemma exchange_served (route : value -> outcome) (useEdit : bool) (st : state)
    (encoded : list value) :
  studio_images useEdit st = Ok encoded ->
  exchange (serve runtime route) useEdit st =
    let o := route (studio_body useEdit st encoded) in
    let json := wire (http_body runtime o) in
    if ok (status_of o)
    then Ok json
    else Throw (Thrown (VStr (JS.to_string
                                (JS.or (JS.get_opt json "error")
                                       (VStr "Request failed"))))).
Proof.
  unfold studio_images, exchange, studio_body, serve. destruct useEdit.
  - intros ->. by rewrite !bind_Ok.
  - intros [= <-]. by rewrite !bind_Ok.
Qed.

Lemma mapR_encode_unreadable (fs : list file) :
  Exists (fun f => read f = None) fs ->
  mapR encode fs = Throw (Thrown VUndefined).
Proof.
  induction fs as [|f r IH]; intros Hex; [by apply Exists_nil in Hex|].
  cbn [mapR]. destruct (read f) as [res|] eqn:Hr.
  - assert (exists e, encode f = Ok e) as [e ->].
    { unfold encode, toBase64. rewrite Hr. eauto. }
    rewrite bind_Ok. apply Exists_cons in Hex as [Hex|Hex]; [congruence|].
    by rewrite (IH Hex).
  - assert (encode f = Throw (Thrown VUndefined)) as ->; [|done].
    unfold encode, toBase64. by rewrite Hr.
Qed.

(** A [send] never loses anything: the prompt, the selection and the aspect
    ratio stay, and the gallery keeps every image it had, in place.  When
    the exchange with the server fails, the gallery is exactly what it was
    and a message is shown; when a selected file cannot be read, the
    message is "Unexpected error" and nothing is sent. *)
Theorem studio_gallery_only_grows (fetch : value -> result (Z * value))
    (useEdit : bool) (st st' : state) :
  send runtime fetch useEdit st = Ok st' ->
  (prompt st' = prompt st /\ files st' = files st /\ aspectRatio st' = aspectRatio st)
  /\ (exists fresh, imagesOut st' = imagesOut st ++ fresh)
  /\ (trim (prompt st) <> "" ->
      loading st' = false
      /\ (forall e,
             exchange fetch useEdit st = Throw e ->
             imagesOut st' = imagesOut st /\ JS.truthy (textOut st') = true)
      /\ (useEdit = true ->
          Exists (fun f => read f = None) (files st) ->
          imagesOut st' = imagesOut st /\ textOut st' = VStr "Unexpected error")).
Proof.
  unfold send. destruct (trim (prompt st)) as [|c r] eqn:Ht.
  { intros [= <-]. split; [done|]. split; [|done].
    exists []. by rewrite app_nil_r. }
  destruct (exchange fetch useEdit st) as [json|e] eqn:Hx.
  - destruct (JS.iterate _) as [fresh|]; [|done]. rewrite bind_Ok.
    intros [= <-]. simpl. split; [done|]. split; [eauto|]. intros _.
    split; [done|]. split; [done|].
    intros -> Hex. unfold exchange in Hx.
    by rewrite (mapR_encode_unreadable _ Hex) in Hx.
  - intros [= <-]. simpl. split; [done|]. split.
    { exists []. by rewrite app_nil_r. }
    intros _. split; [done|]. split.
    + intros e' _. split; [done|]. by apply or_truthy.
    + intros -> Hex. unfold exchange in Hx.
      rewrite (mapR_encode_unreadable _ Hex) in Hx. by injection Hx as <-.
Qed.

(** The call of the provider behind a [send]: one user turn with the prompt
    and the images exactly as the studio encoded them (one per selected
    file when editing, none when generating, whatever is selected), no
    history, image output only, and the aspect ratio when one is chosen. *)
Theorem studio_reaches_provider (generateContent : request -> result value)
    (useEdit : bool) (st : state) (encoded : list value) :
  trim (prompt st) <> "" ->
  studio_images useEdit st = Ok encoded ->
  ImageRoute.POST generateContent (studio_body useEdit st encoded) =
    run (response ← generateContent (studio_request st encoded);
         ImageRoute.normalize response)
  /\ length encoded = (if useEdit then length (files st) else 0)%nat.
Proof.
  intros Hp Hi. split; [by apply studio_route_call|].
  unfold studio_images in Hi. destruct useEdit.
  - by apply mapR_length in Hi.
  - by injection Hi as <-.
Qed.

Lemma send_failed (route : value -> outcome) (useEdit : bool) (st : state)
    (encoded : list value) (message : string) :
  trim (prompt st) <> "" ->
  studio_images useEdit st = Ok encoded ->
  ok (status_of (route (studio_body useEdit st encoded))) = false ->
  JS.get_opt (wire (http_body runtime (route (studio_body useEdit st encoded))))
             "error" = VStr message ->
  message <> "" ->
  send runtime (serve runtime route) useEdit st =
    Ok (State (prompt st) (files st) (imagesOut st) (VStr message) false
              (aspectRatio st)).
Proof.
  intros Hp Hi Hok Herr Hm. unfold send.
  destruct (trim (prompt st)) as [|c r]; [done|].
  rewrite (exchange_served _ _ _ _ Hi). cbn zeta. rewrite Hok, Herr.
  rewrite (or_string _ _ Hm). cbn [JS.to_string message_of].
  by rewrite (or_string _ _ Hm).
Qed.

(** What the studio shows when the provider gives nothing: for a response
    without any image or text, the message of the image route ("Request
    blocked: ..." or "No output returned ..."); for an error of the
    provider client, that error's message.  The gallery is unchanged. *)
Theorem studio_shows_failure (generateContent : request -> result value)
    (useEdit : bool) (st : state) (encoded : list value) :
  trim (prompt st) <> "" ->
  studio_images useEdit st = Ok encoded ->
  (forall response,
      generateContent (studio_request st encoded) = Ok response ->
      ImageRoute.collect response = Ok (ImageRoute.Outputs [] []) ->
      send runtime (serve runtime (ImageRoute.POST generateContent)) useEdit st =
        Ok (State (prompt st) (files st) (imagesOut st)
                  (VStr (ImageRoute.msg response)) false (aspectRatio st)))
  /\ (forall message,
         generateContent (studio_request st encoded) = Throw (Thrown (VStr message)) ->
         message <> "" ->
         send runtime (serve runtime (ImageRoute.POST generateContent)) useEdit st =
           Ok (State (prompt st) (files st) (imagesOut st)
                     (VStr message) false (aspectRatio st))).
Proof.
  intros Hp Hi. split.
  - intros response Hg Hc.
    assert (ImageRoute.POST generateContent (studio_body useEdit st encoded) =
              Respond 500 (VObj [("error", VStr (ImageRoute.msg response))])) as Hpost.
    { by rewrite (studio_route_call _ _ _ _ Hp Hi), Hg, bind_Ok,
        (normalize_empty _ Hc). }
    apply (send_failed _ _ _ encoded); rewrite ?Hpost; try done.
    apply msg_not_empty.
  - intros message Hg Hm.
    assert (ImageRoute.POST generateContent (studio_body useEdit st encoded) =
              Caught (Thrown (VStr message))) as Hpost.
    { by rewrite (studio_route_call _ _ _ _ Hp Hi), Hg, bind_Throw. }
    apply (send_failed _ _ _ encoded); rewrite ?Hpost; try done.
    cbn [http_body message_of]. by rewrite (or_string _ _ Hm).
Qed.

(** What the studio shows when the provider gives something: the images of
    the response are appended to the gallery in the provider's order, as
    they come over the wire, and the text shown is the joined text of the
    response. *)
Theorem studio_gallery_gains_images (generateContent : request -> result value)
    (useEdit : bool) (st : state) (encoded : list value)
    (response : value) (out : ImageRoute.outputs) :
  trim (prompt st) <> "" ->
  studio_images useEdit st = Ok encoded ->
  generateContent (studio_request st encoded) = Ok response ->
  ImageRoute.collect response = Ok out ->
  ImageRoute.imagesOut out <> [] \/ ImageRoute.textsOut out <> [] ->
  send runtime (serve runtime (ImageRoute.POST generateContent)) useEdit st =
    Ok (studio_after st (wire <$> ImageRoute.imagesOut out)
          (VStr (JS.join_values newline (ImageRoute.textsOut out)))).
Proof.
  intros Hp Hi Hg Hc Hsome.
  assert (ImageRoute.POST generateContent (studio_body useEdit st encoded) =
            Respond 200
              (VObj [("images", VArr (ImageRoute.imagesOut out));
                     ("text", VStr (JS.join_values newline (ImageRoute.textsOut out)))]))
    as Hpost.
  { rewrite (studio_route_call _ _ _ _ Hp Hi), Hg, bind_Ok.
    unfold ImageRoute.normalize. rewrite Hc, bind_Ok.
    destruct (ImageRoute.imagesOut out), (ImageRoute.textsOut out);
      try done. by destruct Hsome. }
  unfold send. destruct (trim (prompt st)) as [|c r]; [done|].
  rewrite (exchange_served _ _ _ _ Hi), Hpost. cbn. unfold studio_after.
  by destruct (JS.join_values newline (ImageRoute.textsOut out)).
Qed.

End studio_sends.

Lemma studio_prompt_guard_witness :
  ImageStudio.send "" (fun _ => Throw TypeError) true
    (ImageStudio.State "   " [] [] (VStr "") false "") =
    Ok (ImageStudio.State "   " [] [] (VStr "") false "")
  /\ status_of (ImageRoute.POST (fun _ => Ok one_image_response)
                  (studio_body false sample_studio [])) <> 400.
Proof.
  split.
  - exact (proj1 (studio_prompt_guard "" (fun _ => Ok VNull) true
                    (ImageStudio.State "   " [] [] (VStr "") false ""))
             eq_refl _).
  - refine (proj2 (studio_prompt_guard "" (fun _ => Ok one_image_response) false
                     sample_studio) _ [] _).
    + discriminate.
    + constructor.
Defined.

Lemma studio_gallery_only_grows_witness :
  exists fresh,
    [VObj [("data", VStr "T0xE"); ("mimeType", VStr "image/png")];
     VObj [("data", VStr "TkVX"); ("mimeType", VStr "image/png")]] =
    ImageStudio.imagesOut sample_studio ++ fresh.
Proof.
  exact (proj1 (proj2 (studio_gallery_only_grows ""
                         (serve "" (ImageRoute.POST (fun _ => Ok one_image_response)))
                         true sample_studio _ eq_refl))).
Defined.

Lemma studio_reaches_provider_witness :
  ImageRoute.POST (fun req => Ok (VObj [("parts", VArr (req_contents req))]))
    (studio_body true sample_studio
       [VObj [("data", VStr "QUJD"); ("mimeType", VStr "image/jpeg")]]) =
    run (ImageRoute.normalize
           (VObj [("parts",
                   VArr [user_turn
                           [text_part (VStr "a red fox");
                            VObj [("inlineData",
                                   VObj [("data", VStr "QUJD");
                                         ("mimeType", VStr "image/jpeg")])]]])])).
Proof.
  refine (proj1 (studio_reaches_provider
                   (fun req => Ok (VObj [("parts", VArr (req_contents req))]))
                   true sample_studio _ _ eq_refl)).
  discriminate.
Defined.

Lemma studio_shows_failure_witness :
  ImageStudio.send "" (serve "" (ImageRoute.POST (fun _ => Ok blocked_response)))
    false sample_studio =
    Ok (ImageStudio.State "a red fox" (ImageStudio.files sample_studio)
          (ImageStudio.imagesOut sample_studio)
          (VStr "Request blocked: SAFETY") false "16:9").
Proof.
  refine (proj1 (studio_shows_failure "" (fun _ => Ok blocked_response) false
                   sample_studio [] _ eq_refl) blocked_response eq_refl eq_refl).
  discriminate.
Defined.

Lemma studio_gallery_gains_images_witness :
  ImageStudio.send "" (serve "" (ImageRoute.POST (fun _ => Ok one_image_response)))
    true sample_studio =
    Ok (ImageStudio.State "a red fox" (ImageStudio.files sample_studio)
          [VObj [("data", VStr "T0xE"); ("mimeType", VStr "image/png")];
           VObj [("data", VStr "TkVX"); ("mimeType", VStr "image/png")]]
          (VStr "") false "16:9").
Proof.
  refine (studio_gallery_gains_images "" (fun _ => Ok one_image_response) true
            sample_studio _ one_image_response _ _ eq_refl eq_refl eq_refl _).
  - discriminate.
  - left. discriminate.
Defined.
